(** * Cafe management front-end: cart, checkout, order status and API client

    A shallow embedding of the client logic of the cafe management
    front-end, with the properties its specification states about it.

    Source files embedded here:
    - [lib/api.ts], the module imported as [@/lib/api] (token service,
      response interceptor, [handleApiError]),
    - [hooks/use-api.ts] ([executeApiCall]),
    - [app/menu/page.tsx] (guest cart and [handleCheckout]),
    - [app/dashboard/orders/page.tsx] (draft order form, quick status update),
    - [components/order-details.tsx] ([getNextStatus]).

    Modelling conventions.
    - A JS [number] used as an identifier, a quantity, an HTTP status or a
      delay is a [Z]; a price or an amount is a binary64 [float], added
      and multiplied as the language does, with its rounding.
    - A JS string is a [string]: a sequence of 8-bit code units.
    - React state is a record; a handler reads the values captured by the
      render it was created in and writes through the setters, which only
      change the next state.
    - Effects (toasts, requests, timers, storage writes, navigation) are
      appended to a log carried by the world the handler runs in; what is
      written to the console is left out. *)

From Stdlib Require Import ZArith QArith List Bool String Ascii Lia Floats.
From Stdlib Require DecimalString.
From stdpp Require Import gmap strings.
Import ListNotations.

Local Open Scope string_scope.
Local Open Scope list_scope.
Local Open Scope Z_scope.

(** ** Errors of the HTTP client *)
Module Axios.

(** Body of an error response, as [handleApiError] destructures it:
    [{ error?: string; details?: string | Record<string, string> }]. *)
Inductive Details :=
| DetailsString (s : string)
| DetailsRecord (fields : list (string * string)).

Record ErrorBody := {
  error : option string;
  details : option Details
}.

(** [data] is [None] when the response carries a falsy body. *)
Record Response := {
  status : Z;
  data : option ErrorBody
}.

(** [request] tells whether [error.request] is set; [url] is the endpoint
    the request was sent to ([error.config.url]). *)
Record AxiosError := {
  message : string;
  response : option Response;
  request : bool;
  url : string
}.

End Axios.

(** ** Completions and the handler monad *)

(** A value thrown by JS code, as far as [handleApiError] can tell values
    apart: an axios error (the [isAxiosError] flag; it is an [Error], with
    a [message]), another [Error] object, or anything else. *)
Inductive Thrown :=
| AxiosErr (e : Axios.AxiosError)
| ErrorObj (message : string)
| NonError (shown : string).

Inductive Completion (A : Type) :=
| Normal (a : A)
| Throw (e : Thrown).
Arguments Normal {A} a.
Arguments Throw {A} e.

(** How a call to the server ends: it resolves with the response body
    ([None] for a falsy one) or rejects. *)
Inductive Outcome (A : Type) :=
| Resolved (v : option A)
| Rejected (e : Thrown).
Arguments Resolved {A} v.
Arguments Rejected {A} e.

(** A computation over a world [W] that returns or throws. *)
Definition M (W A : Type) : Type := W -> Completion A * W.

Definition ret {W A} (a : A) : M W A := fun w => (Normal a, w).

Definition bind {W A B} (c : M W A) (k : A -> M W B) : M W B :=
  fun w => match c w with
           | (Normal a, w') => k a w'
           | (Throw e, w') => (Throw e, w')
           end.

Definition throw {W A} (e : Thrown) : M W A := fun w => (Throw e, w).

Definition modify {W} (f : W -> W) : M W unit := fun w => (Normal tt, f w).

(** [try { body } catch (e) { handler e } finally { cleanup }] *)
Definition try_catch_finally {W A}
    (body : M W A) (handler : Thrown -> M W A) (cleanup : M W unit) : M W A :=
  fun w =>
    let '(r, w1) := match body w with
                    | (Normal a, w') => (Normal a, w')
                    | (Throw e, w') => handler e w'
                    end in
    match cleanup w1 with
    | (Normal _, w2) => (r, w2)
    | (Throw e, w2) => (Throw e, w2)
    end.

Declare Scope js_scope.
Delimit Scope js_scope with js.
Notation "x <- c ;; k" := (bind c (fun x => k))
  (at level 100, c at next level, right associativity) : js_scope.
Notation "c ;; k" := (bind c (fun _ => k))
  (at level 100, right associativity) : js_scope.

(** ** Built-ins of the language *)
Module Js.

(** White space removed by [String.prototype.trim], within 8-bit code
    units: TAB, LF, VT, FF, CR, SP and NBSP. *)
Definition isWhiteSpace (c : ascii) : bool :=
  let n := N_of_ascii c in
  ((9 <=? n) && (n <=? 13) || (n =? 32) || (n =? 160))%N.

Fixpoint trimStart (s : string) : string :=
  match s with
  | String c s' => if isWhiteSpace c then trimStart s' else s
  | EmptyString => EmptyString
  end.

(** Drops the white space at the end: a character stays when it is not
    white space or when something stays after it. *)
Fixpoint trimEnd (s : string) : string :=
  match s with
  | String c s' =>
      match trimEnd s' with
      | EmptyString => if isWhiteSpace c then EmptyString else String c EmptyString
      | rest => String c rest
      end
  | EmptyString => EmptyString
  end.

Definition trim (s : string) : string := trimEnd (trimStart s).

(** Truthiness of a string: only the empty string is falsy. *)
Definition truthy (s : string) : bool :=
  match s with EmptyString => false | _ => true end.

(** A template literal [`${n}`] on an integer. *)
Definition toString (n : Z) : string :=
  DecimalString.NilZero.string_of_int (Z.to_int n).

(** The number a quantity is, for quantities below 2^63 in absolute
    value: the binary64 number nearest to the integer. *)
Definition number (z : Z) : float :=
  if z <? 0
  then PrimFloat.opp (PrimFloat.of_uint63 (Uint63.of_Z (- z)))
  else PrimFloat.of_uint63 (Uint63.of_Z z).

(** The rational a finite number stands for, exactly (0 for an infinity
    and for NaN). *)
Definition value (x : float) : Q :=
  match Prim2SF x with
  | S754_finite negative m e =>
      (inject_Z (if negative then Z.neg m else Z.pos m) * Qpower 2 e)%Q
  | _ => 0%Q
  end.

(** Value of a digit in a radix of at most 16, or [None]. *)
Definition digitValue (radix : Z) (c : ascii) : option Z :=
  let n := Z.of_N (N_of_ascii c) in
  let d := if (48 <=? n) && (n <=? 57) then n - 48
           else if (97 <=? n) && (n <=? 102) then n - 87
           else if (65 <=? n) && (n <=? 70) then n - 55
           else radix in
  if d <? radix then Some d else None.

Fixpoint parseDigits (radix : Z) (s : string) (acc : option Z) : option Z :=
  match s with
  | String c s' =>
      match digitValue radix c with
      | Some d => parseDigits radix s' (Some (radix * match acc with Some a => a | None => 0 end + d))
      | None => acc
      end
  | EmptyString => acc
  end.

(** [Number.parseInt(s)] without a radix: leading white space, a sign,
    a [0x] prefix for radix 16, then the longest run of digits; [None]
    is [NaN]. *)
Definition parseInt (s : string) : option Z :=
  let s1 := trimStart s in
  let '(negative, s2) :=
    match s1 with
    | String "-" rest => (true, rest)
    | String "+" rest => (false, rest)
    | _ => (false, s1)
    end in
  let '(radix, s3) :=
    match s2 with
    | String "0" (String "x" rest) => (16, rest)
    | String "0" (String "X" rest) => (16, rest)
    | _ => (10, s2)
    end in
  option_map (fun n => if negative then - n else n) (parseDigits radix s3 None).

(** [Array.prototype.join]. *)
Fixpoint join (sep : string) (l : list string) : string :=
  match l with
  | [] => ""
  | [x] => x
  | x :: rest => (x ++ sep ++ join sep rest)%string
  end.

(** [Array.prototype.findIndex]: [None] stands for [-1]. *)
Fixpoint findIndex {A} (f : A -> bool) (l : list A) : option nat :=
  match l with
  | [] => None
  | x :: rest => if f x then Some O else option_map S (findIndex f rest)
  end.

End Js.

(** ** [lib/api.ts]: data types *)
Module Product.
Record t := {
  id : Z;
  name : string;
  description : string;
  price : float;
  category : string;
  imageUrl : string
}.
End Product.

Module OrderItem.
Record t := {
  id : Z;
  productId : Z;
  productName : string;
  quantity : Z;
  price : float
}.
End OrderItem.

Module Order.
Record t := {
  id : Z;
  tableId : Z;
  userId : Z;
  status : string;
  items : list OrderItem.t;
  total : float;
  orderDate : string
}.
End Order.

(** ** [lib/api.ts]: token service, response interceptor, error messages *)
Module Api.
Import Axios.

(** What the client does to the browser. *)
Inductive BrowserEvent :=
| RemoveItem (key : string)
| SetItem (key value : string)
| Navigate (href : string).

(** The globals the module touches.  [has_window] is
    [typeof window !== "undefined"]: false when the module runs on the
    server, where there is no storage and no location. *)
Record Browser := {
  has_window : bool;
  localStorage : gmap string string;
  location_href : string;
  events : list BrowserEvent
}.

Module tokenService.

Definition getToken (b : Browser) : option string :=
  if has_window b then localStorage b !! "auth_token" else None.

Definition setToken (token : string) : M Browser unit :=
  modify (fun b =>
    if has_window b
    then {| has_window := has_window b;
            localStorage := <["auth_token" := token]> (localStorage b);
            location_href := location_href b;
            events := events b ++ [SetItem "auth_token" token] |}
    else b).

Definition removeToken : M Browser unit :=
  modify (fun b =>
    if has_window b
    then {| has_window := has_window b;
            localStorage := delete "auth_token" (localStorage b);
            location_href := location_href b;
            events := events b ++ [RemoveItem "auth_token"] |}
    else b).

Definition isAuthenticated (b : Browser) : bool :=
  match getToken b with
  | Some token => Js.truthy token
  | None => false
  end.

End tokenService.

(** [window.location.href = href] *)
Definition set_location_href (href : string) : M Browser unit :=
  modify (fun b =>
    {| has_window := has_window b;
       localStorage := localStorage b;
       location_href := href;
       events := events b ++ [Navigate href] |}).

(** [error.response?.status === code] *)
Definition response_status_is (error : AxiosError) (code : Z) : bool :=
  match response error with
  | Some r => status r =? code
  | None => false
  end.

(** The two handlers given to [api.interceptors.response.use]. *)
Definition onFulfilled {R} (response : R) : M Browser R := ret response.

Definition onRejected {R} (error : AxiosError) : M Browser R :=
  ((if response_status_is error 401
    then (tokenService.removeToken ;;
          fun b => if has_window b then set_location_href "/login" b
                   else ret tt b)
    else ret tt) ;;
   throw (AxiosErr error))%js.

(** The block [// Handle structured API errors], entered when
    [response.data] is truthy: the [error] field when truthy, else the
    [details] field when truthy (a string as it is, an object as its
    values joined).  [None] when the block falls through. *)
Definition structuredMessage (r : Response) : option string :=
  match data r with
  | Some body =>
      match error body with
      | Some errorMessage =>
          if Js.truthy errorMessage then Some errorMessage
          else match details body with
               | Some (DetailsString d) => if Js.truthy d then Some d else None
               | Some (DetailsRecord fields) => Some (Js.join ", " (map snd fields))
               | None => None
               end
      | None =>
          match details body with
          | Some (DetailsString d) => if Js.truthy d then Some d else None
          | Some (DetailsRecord fields) => Some (Js.join ", " (map snd fields))
          | None => None
          end
      end
  | None => None
  end.

(** The [switch] of the block [// Handle HTTP errors]. *)
Definition statusMessage (code : Z) : string :=
  if code =? 400 then "Bad request. Please check your input."
  else if code =? 401 then "Unauthorized. Please log in again."
  else if code =? 403 then "Forbidden. You do not have permission to access this resource."
  else if code =? 404 then "Resource not found."
  else if code =? 500 then "Server error. Please try again later."
  else ("Error: " ++ Js.toString code)%string.

Definition handleApiError (error : Thrown) : string :=
  match error with
  | AxiosErr axiosError =>
      if (message axiosError =? "Network Error")%string
      then "Cannot connect to the server. Please check your connection or try again later."
      else
        match response axiosError with
        | Some r =>
            match structuredMessage r with
            | Some m => m
            | None => statusMessage (status r)
            end
        | None =>
            if request axiosError
            then "Network error. Please check your connection."
            else message axiosError
        end
  | ErrorObj m => m
  | NonError _ => "An unknown error occurred"
  end.

(** How often the log holds an eviction of the token, and a redirect
    to [href]. *)
Definition evictions (l : list BrowserEvent) : nat :=
  length (List.filter (fun e => match e with
                                | RemoveItem key => (key =? "auth_token")%string
                                | _ => false
                                end) l).
Definition redirects (href : string) (l : list BrowserEvent) : nat :=
  length (List.filter (fun e => match e with
                                | Navigate h => (h =? href)%string
                                | _ => false
                                end) l).

(** A browser that holds a token, and a 401 from the orders endpoint. *)
Definition logged_in : Browser :=
  {| has_window := true;
     localStorage := {[ "auth_token" := "secret" ]};
     location_href := "/dashboard/orders";
     events := [] |}.

Definition unauthorized : AxiosError :=
  {| message := "Request failed with status code 401";
     response := Some {| status := 401; data := None |};
     request := true;
     url := "/orders" |}.

Definition not_found : AxiosError :=
  {| message := "Request failed with status code 404";
     response := Some {| status := 404; data := None |};
     request := true;
     url := "/products/7" |}.

(** A response without a structured error body: no body at all, or a
    body whose [error] and [details] are both falsy. *)
Definition no_structured_body (r : Response) : bool :=
  match data r with
  | None => true
  | Some body =>
      negb (match error body with Some e => Js.truthy e | None => false end)
      && negb (match details body with
               | Some (DetailsString d) => Js.truthy d
               | Some (DetailsRecord _) => true
               | None => false
               end)
  end.

End Api.

(** ** Toasts, shared by the pages *)
Inductive Variant := Default | Destructive.

Record ToastMsg := {
  title : string;
  description : string;
  variant : Variant
}.

(** ** [hooks/use-api.ts] *)
Module UseApi.

(** The two pieces of state of the hook. *)
Record Hook := {
  isLoading : bool;
  error : option string
}.

Definition setIsLoading (v : bool) (h : Hook) : Hook :=
  {| isLoading := v; error := error h |}.
Definition setError (v : option string) (h : Hook) : Hook :=
  {| isLoading := isLoading h; error := v |}.

(** [executeApiCall(apiCall)] in a world [W] that holds the hook
    ([on_hook] applies a change to it).  The value of [apiCall] is
    [None] when it is falsy; the result is [None] for such a value and
    for the [null] returned after an error. *)
Definition executeApiCall {W A} (on_hook : (Hook -> Hook) -> W -> W)
    (apiCall : M W (option A)) : M W (option A) :=
  (modify (on_hook (setIsLoading true)) ;;
   modify (on_hook (setError None)) ;;
   try_catch_finally
     (result <- apiCall ;; ret result)
     (fun err =>
        let errorMessage := Api.handleApiError err in
        modify (on_hook (setError (Some errorMessage))) ;;
        ret None)
     (modify (on_hook (setIsLoading false))))%js.

End UseApi.

(** ** [app/menu/page.tsx]: the guest cart *)
Module Menu.

(** [interface CartItem extends Product { quantity: number }]: the
    product's fields and a quantity.  The spread [{ ...item, quantity: q }]
    keeps [product] and replaces [quantity]. *)
Record CartItem := {
  product : Product.t;
  quantity : Z
}.

Definition item_id (item : CartItem) : Z := Product.id (product item).

(** The product ids of the lines of a cart, in order. *)
Definition ids (cart : list CartItem) : list Z := map item_id cart.

(** The lines of the products other than [pid], in the order of the cart. *)
Definition other_lines (pid : Z) (cart : list CartItem) : list CartItem :=
  List.filter (fun item => negb (item_id item =? pid)) cart.

(** [{ ...item, quantity: q }] *)
Definition with_quantity (item : CartItem) (q : Z) : CartItem :=
  {| product := product item; quantity := q |}.

Definition addToCart (p : Product.t) (prevCart : list CartItem) : list CartItem :=
  match find (fun item => item_id item =? Product.id p) prevCart with
  | Some _ =>
      map (fun item =>
             if item_id item =? Product.id p
             then with_quantity item (quantity item + 1)
             else item) prevCart
  | None => prevCart ++ [ {| product := p; quantity := 1 |} ]
  end.

Definition removeFromCart (productId : Z) (prevCart : list CartItem) : list CartItem :=
  match find (fun item => item_id item =? productId) prevCart with
  | Some existingItem =>
      if 1 <? quantity existingItem
      then map (fun item =>
                  if item_id item =? productId
                  then with_quantity item (quantity item - 1)
                  else item) prevCart
      else List.filter (fun item => negb (item_id item =? productId)) prevCart
  | None => List.filter (fun item => negb (item_id item =? productId)) prevCart
  end.

Definition getTotalItems (cart : list CartItem) : Z :=
  fold_left (fun total item => total + quantity item) cart 0.

Definition getTotalPrice (cart : list CartItem) : float :=
  fold_left (fun total item =>
               (total + Product.price (product item) * Js.number (quantity item))%float)
            cart 0%float.

(** The carts the page can hold: the state starts empty and changes only
    through [addToCart], [removeFromCart] and the reset of the checkout. *)
Inductive reachable : list CartItem -> Prop :=
| reach_initial : reachable []
| reach_add p cart : reachable cart -> reachable (addToCart p cart)
| reach_remove pid cart : reachable cart -> reachable (removeFromCart pid cart).

(** The sums the specification speaks of, line by line; the second in
    exact arithmetic, each price taken for the rational it stands for. *)
Fixpoint sum_of_quantities (cart : list CartItem) : Z :=
  match cart with
  | [] => 0
  | item :: rest => quantity item + sum_of_quantities rest
  end.



(** The cart of the specification's example: product A at 3.50, twice,
    and product B at 5.00, once. *)
Definition productA : Product.t :=
  {| Product.id := 1; Product.name := "Product A"; Product.description := "";
     Product.price := 3.5%float; Product.category := "drinks"; Product.imageUrl := "" |}.
Definition productB : Product.t :=
  {| Product.id := 2; Product.name := "Product B"; Product.description := "";
     Product.price := 5%float; Product.category := "food"; Product.imageUrl := "" |}.
Definition example_cart : list CartItem :=
  [ {| product := productA; quantity := 2 |}; {| product := productB; quantity := 1 |} ].

(** Three products at 0.10, 0.20 and 0.30 -- the binary64 numbers
    nearest to them --, one of each. *)
Definition priced (id : Z) (price : float) : Product.t :=
  {| Product.id := id; Product.name := ""; Product.description := "";
     Product.price := price; Product.category := "food"; Product.imageUrl := "" |}.
Definition small_change_cart : list CartItem :=
  [ {| product := priced 1 0x1.999999999999ap-4%float; quantity := 1 |};
    {| product := priced 2 0x1.999999999999ap-3%float; quantity := 1 |};
    {| product := priced 3 0x1.3333333333333p-2%float; quantity := 1 |} ].

(** *** The checkout *)

(** [{ tableId, guestName, items }] given to [api.orders.create]. *)
Record CreateOrderRequest := {
  req_tableId : option Z;
  req_guestName : string;
  req_items : list (Z * Z)
}.

(** [setTimeout(() => router.push(url), ms)] *)
Record Timer := {
  push_url : string;
  delay_ms : Z
}.

Inductive Event :=
| Toast (t : ToastMsg)
| Request (req : CreateOrderRequest)
| SetTimeout (t : Timer).

(** The state of the page that the checkout reads and writes. *)
Record State := {
  cart : list CartItem;
  selectedTable : option string;
  cartCustomerName : string;
  isCartOpen : bool;
  isPlacingOrder : bool
}.

Record World := {
  state : State;
  hook : UseApi.Hook;
  log : list Event
}.

Definition on_state (f : State -> State) (w : World) : World :=
  {| state := f (state w); hook := hook w; log := log w |}.
Definition on_hook (f : UseApi.Hook -> UseApi.Hook) (w : World) : World :=
  {| state := state w; hook := f (hook w); log := log w |}.
Definition emit (e : Event) : M World unit :=
  modify (fun w => {| state := state w; hook := hook w; log := log w ++ [e] |}).

Definition setCart (v : list CartItem) : M World unit :=
  modify (on_state (fun s =>
    {| cart := v; selectedTable := selectedTable s;
       cartCustomerName := cartCustomerName s;
       isCartOpen := isCartOpen s; isPlacingOrder := isPlacingOrder s |})).
Definition setCartCustomerName (v : string) : M World unit :=
  modify (on_state (fun s =>
    {| cart := cart s; selectedTable := selectedTable s;
       cartCustomerName := v;
       isCartOpen := isCartOpen s; isPlacingOrder := isPlacingOrder s |})).
Definition setIsCartOpen (v : bool) : M World unit :=
  modify (on_state (fun s =>
    {| cart := cart s; selectedTable := selectedTable s;
       cartCustomerName := cartCustomerName s;
       isCartOpen := v; isPlacingOrder := isPlacingOrder s |})).
Definition setIsPlacingOrder (v : bool) : M World unit :=
  modify (on_state (fun s =>
    {| cart := cart s; selectedTable := selectedTable s;
       cartCustomerName := cartCustomerName s;
       isCartOpen := isCartOpen s; isPlacingOrder := v |})).

Definition toast (t : ToastMsg) : M World unit := emit (Toast t).
Definition setTimeout_push (url : string) (ms : Z) : M World unit :=
  emit (SetTimeout {| push_url := url; delay_ms := ms |}).

Definition Order := Order.t.

(** [api.orders.create(req)] against a server that answers [respond]. *)
Definition orders_create (respond : CreateOrderRequest -> Outcome Order)
    (req : CreateOrderRequest) : M World (option Order) :=
  (emit (Request req) ;;
   match respond req with
   | Resolved v => ret v
   | Rejected e => throw e
   end)%js.

Definition success_toast (name table : string) : ToastMsg :=
  {| title := "Order Placed Successfully!";
     description := ("Thank you " ++ Js.trim name
                     ++ "! Your order has been placed for Table " ++ table)%string;
     variant := Default |}.

(** The request built from the cart lines, the table and the name. *)
Definition order_request (table : string) (r : State) : CreateOrderRequest :=
  let orderItems := map (fun item => (item_id item, quantity item)) (cart r) in
  {| req_tableId := Js.parseInt table;
     req_guestName := Js.trim (cartCustomerName r);
     req_items := orderItems |}.

(** [handleCheckout], for the render that captured the state [r], with
    the [executeApiCall] and the [api.orders.create] it is given. *)
Definition handleCheckout_with
    (executeApiCall : M World (option Order) -> M World (option Order))
    (create : CreateOrderRequest -> M World (option Order))
    (r : State) : M World unit :=
  match selectedTable r with
  | Some table =>
      if negb (Js.truthy table) || (Z.of_nat (length (cart r)) =? 0)
      then toast {| title := "Cannot place order";
                    description := "Please ensure you have items in your cart and a table selected";
                    variant := Destructive |}
      else if negb (Js.truthy (Js.trim (cartCustomerName r)))
      then toast {| title := "Name Required";
                    description := "Please enter your name before placing the order";
                    variant := Destructive |}
      else
        (setIsPlacingOrder true ;;
         try_catch_finally
           (result <- executeApiCall (create (order_request table r)) ;;
            setCart [] ;;
            setCartCustomerName "" ;;
            setIsCartOpen false ;;
            match result with
            | Some _ => toast (success_toast (cartCustomerName r) table)
            | None =>
                toast {| title := "Order Submitted";
                         description := "Your order has been submitted. Please check with staff if you don't see it appear shortly.";
                         variant := Destructive |}
            end ;;
            setTimeout_push ("/table-orders/" ++ table)%string 1000)
           (fun error =>
              setCart [] ;;
              setCartCustomerName "" ;;
              setIsCartOpen false ;;
              toast {| title := "Order Submission Error";
                       description := "There was an issue submitting your order. Please try again or contact staff.";
                       variant := Destructive |} ;;
              setTimeout_push ("/table-orders/" ++ table)%string 2000)
           (setIsPlacingOrder false))%js
  | None =>
      toast {| title := "Cannot place order";
               description := "Please ensure you have items in your cart and a table selected";
               variant := Destructive |}
  end.

(** The page takes [executeApiCall] from [useApi()]. *)
Definition handleCheckout (respond : CreateOrderRequest -> Outcome Order)
    (r : State) : M World unit :=
  handleCheckout_with (UseApi.executeApiCall on_hook) (orders_create respond) r.

(** The world in which a click on the checkout button runs: the state
    of the last render, the hook at rest, an empty log. *)
Definition at_render (r : State) : World :=
  {| state := r;
     hook := {| UseApi.isLoading := false; UseApi.error := None |};
     log := [] |}.

Definition checkout (respond : CreateOrderRequest -> Outcome Order) (r : State) : World :=
  snd (handleCheckout respond r (at_render r)).

(** What the log holds. *)
Definition requests (l : list Event) : list CreateOrderRequest :=
  flat_map (fun e => match e with Request req => [req] | _ => [] end) l.
Definition toasts (l : list Event) : list ToastMsg :=
  flat_map (fun e => match e with Toast t => [t] | _ => [] end) l.
Definition timers (l : list Event) : list Timer :=
  flat_map (fun e => match e with SetTimeout t => [t] | _ => [] end) l.

(** The three preconditions of a submission. *)
Definition table_selected (r : State) : bool :=
  match selectedTable r with Some table => Js.truthy table | None => false end.
Definition cart_nonempty (r : State) : bool :=
  match cart r with [] => false | _ => true end.
Definition name_present (r : State) : bool :=
  Js.truthy (Js.trim (cartCustomerName r)).

(** Order creation did not succeed: the call rejected, or resolved to a
    falsy value. *)
Definition failed (o : Outcome Order) : bool :=
  match o with
  | Resolved (Some _) => false
  | Resolved None => true
  | Rejected _ => true
  end.

(** A failed submission [w_fail] navigates where the successful one
    [w_ok] does, after a longer delay. *)
Definition navigates_later (w_fail w_ok : World) : Prop :=
  exists t_fail t_ok,
    timers (log w_fail) = [t_fail] /\ timers (log w_ok) = [t_ok] /\
    push_url t_fail = push_url t_ok /\ delay_ms t_ok < delay_ms t_fail.

(** The outcome the specification words for a failed submission: cart
    cleared, a destructive toast, and the navigation of the successful
    case after a longer delay. *)
Definition failure_as_specified (w_fail w_ok : World) : Prop :=
  cart (state w_fail) = [] /\
  (exists t, toasts (log w_fail) = [t] /\ variant t = Destructive) /\
  navigates_later w_fail w_ok.

(** A guest at table 5 with the example cart. *)
Definition guest_state : State :=
  {| cart := example_cart; selectedTable := Some "5"; cartCustomerName := "Bob";
     isCartOpen := true; isPlacingOrder := false |}.

(** The same guest before anything is in the cart. *)
Definition empty_handed : State :=
  {| cart := []; selectedTable := Some "5"; cartCustomerName := "Bob";
     isCartOpen := true; isPlacingOrder := false |}.

Definition created_order : Order :=
  {| Order.id := 1; Order.tableId := 5; Order.userId := 0; Order.status := "new";
     Order.items := []; Order.total := 12%float; Order.orderDate := "" |}.

Definition server_down : Thrown :=
  AxiosErr {| Axios.message := "Network Error"; Axios.response := None;
              Axios.request := true; Axios.url := "/orders" |}.

End Menu.

(** ** [components/order-details.tsx] *)
Module OrderDetails.

Definition getNextStatus (currentStatus : string) : option string :=
  if (currentStatus =? "new")%string then Some "preparing"
  else if (currentStatus =? "preparing")%string then Some "ready"
  else if (currentStatus =? "ready")%string then Some "delivered"
  else if (currentStatus =? "delivered")%string then Some "paid"
  else None.

End OrderDetails.

(** ** [app/dashboard/orders/page.tsx] *)
Module Orders.

(** *** The create-order form *)
Record DraftItem := {
  productId : Z;
  quantity : Z
}.

Record NewOrder := {
  tableId : Z;
  guestName : string;
  items : list DraftItem
}.

Record Form := {
  newOrder : NewOrder;
  selectedProduct : option Z;
  selectedQuantity : Z
}.

Definition productIds (l : list DraftItem) : list Z := map productId l.

(** [{ ...newOrder, items: v }] *)
Definition with_items (o : NewOrder) (v : list DraftItem) : NewOrder :=
  {| tableId := tableId o; guestName := guestName o; items := v |}.

(** [selectedProduct] is [None] for [null]; [0] is falsy too.  The
    entry at the index found is updated in the copy of the list
    ([items[i].quantity += selectedQuantity]); the object updated is the
    one the previous list holds, which nothing reads again. *)
Definition handleAddProductToOrder (f : Form) : Form :=
  match selectedProduct f with
  | None => f
  | Some selected =>
      if (selected =? 0) || (selectedQuantity f <=? 0) then f
      else
        let current := items (newOrder f) in
        match Js.findIndex (fun item => productId item =? selected) current with
        | Some existingItemIndex =>
            let updatedItems :=
              alter (fun item => {| productId := productId item;
                                    quantity := quantity item + selectedQuantity f |})
                    existingItemIndex current in
            {| newOrder := with_items (newOrder f) updatedItems;
               selectedProduct := None;
               selectedQuantity := 1 |}
        | None =>
            {| newOrder := with_items (newOrder f)
                 (current ++ [ {| productId := selected;
                                  quantity := selectedQuantity f |} ]);
               selectedProduct := None;
               selectedQuantity := 1 |}
        end
  end.

Definition handleRemoveProductFromOrder (id : Z) (f : Form) : Form :=
  {| newOrder := with_items (newOrder f)
       (List.filter (fun item => negb (productId item =? id)) (items (newOrder f)));
     selectedProduct := selectedProduct f;
     selectedQuantity := selectedQuantity f |}.

(** A draft with two entries, the second product selected three times. *)
Definition example_form : Form :=
  {| newOrder := {| tableId := 4; guestName := "";
                    items := [ {| productId := 1; quantity := 2 |};
                               {| productId := 2; quantity := 1 |} ] |};
     selectedProduct := Some 2;
     selectedQuantity := 3 |}.

(** A draft with one entry, the second product selected three times. *)
Definition fresh_form : Form :=
  {| newOrder := {| tableId := 4; guestName := "";
                    items := [ {| productId := 1; quantity := 2 |} ] |};
     selectedProduct := Some 2;
     selectedQuantity := 3 |}.

(** *** The quick status update *)

(** The statuses of an order, in their fixed sequence. *)
Definition statusSequence : list string :=
  ["new"; "preparing"; "ready"; "delivered"; "paid"].

(** The [switch] of [handleQuickStatusUpdate]: the new status, or
    [None] where the handler returns at [default]. *)
Definition nextStatus (currentStatus : string) : option string :=
  if (currentStatus =? "new")%string then Some "preparing"
  else if (currentStatus =? "preparing")%string then Some "ready"
  else if (currentStatus =? "ready")%string then Some "delivered"
  else if (currentStatus =? "delivered")%string then Some "paid"
  else None.

Inductive Event :=
| Toast (t : ToastMsg)
| UpdateStatus (orderId : Z) (newStatus : string).

(** The status updates a log holds. *)
Definition status_updates (l : list Event) : list (Z * string) :=
  flat_map (fun e => match e with
                     | UpdateStatus orderId newStatus => [(orderId, newStatus)]
                     | _ => []
                     end) l.

Record World := {
  orders : list Order.t;
  hook : UseApi.Hook;
  log : list Event
}.

Definition on_hook (f : UseApi.Hook -> UseApi.Hook) (w : World) : World :=
  {| orders := orders w; hook := f (hook w); log := log w |}.
Definition emit (e : Event) : M World unit :=
  modify (fun w => {| orders := orders w; hook := hook w; log := log w ++ [e] |}).
Definition setOrders (v : list Order.t) : M World unit :=
  modify (fun w => {| orders := v; hook := hook w; log := log w |}).

(** [api.orders.updateStatus(id, status)] against a server that answers
    [respond]. *)
Definition orders_updateStatus (respond : Z -> string -> Outcome Order.t)
    (id : Z) (newStatus : string) : M World (option Order.t) :=
  (emit (UpdateStatus id newStatus) ;;
   match respond id newStatus with
   | Resolved v => ret v
   | Rejected e => throw e
   end)%js.

(** The page with one order, after a call that the server did not
    take. *)
Definition after_an_error : World :=
  {| orders := [Menu.created_order];
     hook := {| UseApi.isLoading := false;
                UseApi.error := Some "Cannot connect to the server. Please check your connection or try again later." |};
     log := [] |}.

(** Order 1 as the server returns it once prepared. *)
Definition prepared_order : Order.t :=
  {| Order.id := 1; Order.tableId := 5; Order.userId := 0; Order.status := "preparing";
     Order.items := []; Order.total := 12%float; Order.orderDate := "" |}.

(** [handleQuickStatusUpdate(orderId, currentStatus)] for the render
    that captured the list [rendered]. *)
Definition handleQuickStatusUpdate (respond : Z -> string -> Outcome Order.t)
    (rendered : list Order.t) (orderId : Z) (currentStatus : string) : M World unit :=
  match nextStatus currentStatus with
  | None => ret tt
  | Some newStatus =>
      (result <- UseApi.executeApiCall on_hook
                   (orders_updateStatus respond orderId newStatus) ;;
       match result with
       | Some updated =>
           setOrders (map (fun order => if Order.id order =? orderId then updated else order)
                          rendered) ;;
           emit (Toast {| title := "Success";
                          description := ("Order status updated to " ++ newStatus)%string;
                          variant := Default |})
       | None => ret tt
       end)%js
  end.

End Orders.

(** ** [lib/api.ts]: requests and the authentication API *)
Module HttpClient.
Import Axios Api.

(** What a request carries besides its address. *)
Inductive Payload :=
| NoPayload
| Credentials (email password : string)
| Registration (name email password confirmPassword : string).

Record Config := {
  method : string;
  path : string;
  headers : gmap string string;
  payload : Payload
}.

(** The headers given to [axios.create]. *)
Definition defaultHeaders : gmap string string :=
  {[ "Content-Type" := "application/json" ]}.

(** The request interceptor: reads the token and, when it is truthy,
    sets the [Authorization] header. *)
Definition requestInterceptor (config : Config) (b : Browser) : Config :=
  match tokenService.getToken b with
  | Some token =>
      if Js.truthy token
      then {| method := method config;
              path := path config;
              headers := <["Authorization" := ("Bearer " ++ token)%string]> (headers config);
              payload := payload config |}
      else config
  | None => config
  end.

(** How the server answers a request: with the body of a response of
    the declared type, or with a failure that axios reports as an
    [AxiosError]. *)
Inductive Reply (A : Type) :=
| Ok (data : A)
| Fail (e : AxiosError).
Arguments Ok {A} data.
Arguments Fail {A} e.

(** The browser and the requests sent so far, as they left the request
    interceptor. *)
Record World := {
  browser : Browser;
  sent : list Config
}.

Definition on_browser {A} (c : M Browser A) : M World A :=
  fun w => let '(r, b) := c (browser w) in
           (r, {| browser := b; sent := sent w |}).

(** [api.get], [api.post], ... followed by [.data]: the request goes
    through the request interceptor, the answer through the response
    interceptor. *)
Definition outgoing (method path : string) (payload : Payload) (b : Browser) : Config :=
  requestInterceptor {| method := method; path := path;
                        headers := defaultHeaders; payload := payload |} b.

Definition send {A} (server : Config -> Reply A)
    (method path : string) (payload : Payload) : M World A :=
  fun w =>
    let config := outgoing method path payload (browser w) in
    let w1 := {| browser := browser w; sent := sent w ++ [config] |} in
    match server config with
    | Ok data => on_browser (onFulfilled data) w1
    | Fail e => on_browser (onRejected e) w1
    end.

(** Whether the server accepted the request. *)
Definition accepted {A} (r : Reply A) : bool :=
  match r with Ok _ => true | Fail _ => false end.

(** The browser after the response interceptor has handled a failure. *)
Definition after_failure (e : AxiosError) (b : Browser) : Browser :=
  snd (@onRejected unit e b).

Record User := {
  user_id : Z;
  user_name : string;
  user_email : string;
  user_role : string;
  user_status : string;
  user_joinedAt : string
}.

Record AuthResponse := {
  token : string;
  user : User
}.

Module authApi.

Definition login (server : Config -> Reply AuthResponse)
    (email password : string) : M World AuthResponse :=
  (response <- send server "POST" "/auth/login" (Credentials email password) ;;
   on_browser (tokenService.setToken (token response)) ;;
   ret response)%js.

Definition register (server : Config -> Reply AuthResponse)
    (name email password confirmPassword : string) : M World AuthResponse :=
  (response <- send server "POST" "/auth/register"
                 (Registration name email password confirmPassword) ;;
   on_browser (tokenService.setToken (token response)) ;;
   ret response)%js.

Definition logout (server : Config -> Reply unit) : M World unit :=
  try_catch_finally
    (send server "POST" "/auth/logout" NoPayload)
    (fun _ => ret tt)
    (on_browser tokenService.removeToken).

Definition getCurrentUser (server : Config -> Reply User) : M World User :=
  send server "GET" "/auth/me" NoPayload.

Definition validateToken (server : Config -> Reply unit) : M World bool :=
  try_catch_finally
    (send server "GET" "/auth/validate" NoPayload ;; ret true)%js
    (fun _ => on_browser tokenService.removeToken ;; ret false)%js
    (ret tt).

End authApi.

End HttpClient.

(** ** [hooks/use-auth.ts] *)
Module UseAuth.
Import Api HttpClient.

Record State := {
  user : option User;
  isLoading : bool;
  error : option string
}.

(** The client, the state of the hook and what was given to
    [router.push]. *)
Record World := {
  client : HttpClient.World;
  state : State;
  pushes : list string
}.

Definition on_client {A} (c : M HttpClient.World A) : M World A :=
  fun w => let '(r, cl) := c (client w) in
           (r, {| client := cl; state := state w; pushes := pushes w |}).

Definition on_state (f : State -> State) : M World unit :=
  modify (fun w => {| client := client w; state := f (state w); pushes := pushes w |}).

Definition setUser (v : option User) : M World unit :=
  on_state (fun s => {| user := v; isLoading := isLoading s; error := error s |}).
Definition setIsLoading (v : bool) : M World unit :=
  on_state (fun s => {| user := user s; isLoading := v; error := error s |}).
Definition setError (v : option string) : M World unit :=
  on_state (fun s => {| user := user s; isLoading := isLoading s; error := v |}).
Definition router_push (url : string) : M World unit :=
  modify (fun w => {| client := client w; state := state w; pushes := pushes w ++ [url] |}).

Definition stored_token (w : World) : option string :=
  tokenService.getToken (browser (client w)).

(** The effect run on mount. *)
Definition checkAuth (validateServer : Config -> Reply unit)
    (meServer : Config -> Reply User) : M World unit :=
  ((fun w =>
      if tokenService.isAuthenticated (browser (client w))
      then try_catch_finally
             (isValid <- on_client (authApi.validateToken validateServer) ;;
              if isValid : bool
              then (userData <- on_client (authApi.getCurrentUser meServer) ;;
                    setUser (Some userData))
              else ret tt)
             (fun _ => on_client (on_browser tokenService.removeToken))
             (ret tt) w
      else ret tt w) ;;
   setIsLoading false)%js.

Definition login (server : Config -> Reply AuthResponse)
    (email password : string) : M World bool :=
  (setIsLoading true ;;
   setError None ;;
   try_catch_finally
     (response <- on_client (authApi.login server email password) ;;
      on_client (on_browser (tokenService.setToken (token response))) ;;
      setUser (Some (HttpClient.user response)) ;;
      ret true)
     (fun err =>
        let errorMessage := handleApiError err in
        setError (Some errorMessage) ;;
        ret false)
     (setIsLoading false))%js.

Definition register (server : Config -> Reply AuthResponse)
    (name email password confirmPassword : string) : M World bool :=
  (setIsLoading true ;;
   setError None ;;
   try_catch_finally
     (response <- on_client (authApi.register server name email password confirmPassword) ;;
      on_client (on_browser (tokenService.setToken (token response))) ;;
      setUser (Some (HttpClient.user response)) ;;
      ret true)
     (fun err =>
        let errorMessage := handleApiError err in
        setError (Some errorMessage) ;;
        ret false)
     (setIsLoading false))%js.

(** A session in the browser [logged_in], with no user loaded. *)
Definition signed_in : World :=
  {| client := {| browser := logged_in; sent := [] |};
     state := {| user := None; isLoading := false; error := None |};
     pushes := [] |}.

Definition logout (server : Config -> Reply unit) : M World unit :=
  (setIsLoading true ;;
   try_catch_finally
     (on_client (authApi.logout server))
     (fun _ => ret tt)
     (on_client (on_browser tokenService.removeToken) ;;
      setUser None ;;
      router_push "/login" ;;
      setIsLoading false))%js.

(** [isAuthenticated: !!user] *)
Definition isAuthenticated (s : State) : bool :=
  match user s with Some _ => true | None => false end.

End UseAuth.

(** ** [components/auth-guard.tsx] *)
Module AuthGuard.
Import Api.

Definition publicRoutes : list string := ["/"; "/login"; "/register"; "/menu"].

(** [publicRoutes.includes(pathname)] *)
Definition isPublicRoute (pathname : string) : bool :=
  existsb (fun route => (route =? pathname)%string) publicRoutes.

Record World := {
  browser : Browser;
  isChecking : bool;
  pushes : list string
}.

Definition router_push (url : string) : M World unit :=
  modify (fun w => {| browser := browser w; isChecking := isChecking w;
                      pushes := pushes w ++ [url] |}).
Definition setIsChecking (v : bool) : M World unit :=
  modify (fun w => {| browser := browser w; isChecking := v; pushes := pushes w |}).

(** The effect run for every [pathname]. *)
Definition checkAuth (pathname : string) : M World unit :=
  ((fun w =>
      let isAuthenticated := tokenService.isAuthenticated (browser w) in
      if negb (isPublicRoute pathname) && negb isAuthenticated
      then router_push "/login" w
      else if (pathname =? "/login")%string && isAuthenticated
      then router_push "/dashboard" w
      else ret tt w) ;;
   setIsChecking false)%js.

End AuthGuard.

(** ** [app/menu/page.tsx]: loading the products *)
Module MenuProducts.

Record State := {
  products : list Product.t;
  currentCategory : string;
  categoryLoading : bool
}.

Inductive Request :=
| GetAll
| GetByCategory (category : string).

Record World := {
  state : State;
  hook : UseApi.Hook;
  requests : list Request
}.

Definition on_hook (f : UseApi.Hook -> UseApi.Hook) (w : World) : World :=
  {| state := state w; hook := f (hook w); requests := requests w |}.
Definition on_state (f : State -> State) : M World unit :=
  modify (fun w => {| state := f (state w); hook := hook w; requests := requests w |}).

Definition setProducts (v : list Product.t) : M World unit :=
  on_state (fun s => {| products := v; currentCategory := currentCategory s;
                        categoryLoading := categoryLoading s |}).
Definition setCurrentCategory (v : string) : M World unit :=
  on_state (fun s => {| products := products s; currentCategory := v;
                        categoryLoading := categoryLoading s |}).
Definition setCategoryLoading (v : bool) : M World unit :=
  on_state (fun s => {| products := products s; currentCategory := currentCategory s;
                        categoryLoading := v |}).

(** [api.products.getAll()] and [api.products.getByCategory(category)]
    against a server that answers [respond]. *)
Definition fetch (respond : Request -> Outcome (list Product.t)) (req : Request)
    : M World (option (list Product.t)) :=
  (modify (fun w => {| state := state w; hook := hook w;
                       requests := requests w ++ [req] |}) ;;
   match respond req with
   | Resolved v => ret v
   | Rejected e => throw e
   end)%js.

Definition loadProducts (respond : Request -> Outcome (list Product.t)) : M World unit :=
  (result <- UseApi.executeApiCall on_hook (fetch respond GetAll) ;;
   match result with
   | Some listed => setProducts listed
   | None => ret tt
   end)%js.

Definition loadProductsByCategory (respond : Request -> Outcome (list Product.t))
    (category : string) : M World unit :=
  (setCurrentCategory category ;;
   if (category =? "all")%string
   then loadProducts respond
   else
     (setCategoryLoading true ;;
      try_catch_finally
        (result <- UseApi.executeApiCall on_hook (fetch respond (GetByCategory category)) ;;
         match result with
         | Some listed => setProducts listed
         | None => ret tt
         end)
        (fun e => throw e)
        (setCategoryLoading false)))%js.

Definition handleTabChange (respond : Request -> Outcome (list Product.t))
    (value : string) : M World unit :=
  loadProductsByCategory respond value.

(** The request a category stands for. *)
Definition request_for (category : string) : Request :=
  if (category =? "all")%string then GetAll else GetByCategory category.

End MenuProducts.

(** ** [app/dashboard/orders/page.tsx]: the list of orders *)
Module OrdersPage.
Import Orders.

Record State := {
  orders : list Order.t;
  selectedOrder : option Order.t;
  isOrderDetailsOpen : bool;
  isCreateOrderOpen : bool;
  isDeleteDialogOpen : bool;
  currentStatus : string;
  newOrder : NewOrder
}.

Inductive Request :=
| UpdateStatus (id : Z) (status : string)
| Delete (id : Z)
| Create (order : NewOrder).

Inductive Event :=
| Toast (t : ToastMsg)
| Sent (req : Request).

Record World := {
  state : State;
  hook : UseApi.Hook;
  log : list Event
}.

Definition on_hook (f : UseApi.Hook -> UseApi.Hook) (w : World) : World :=
  {| state := state w; hook := f (hook w); log := log w |}.
Definition on_state (f : State -> State) : M World unit :=
  modify (fun w => {| state := f (state w); hook := hook w; log := log w |}).
Definition emit (e : Event) : M World unit :=
  modify (fun w => {| state := state w; hook := hook w; log := log w ++ [e] |}).
Definition toast (t : ToastMsg) : M World unit := emit (Toast t).

Definition setOrders (v : list Order.t) : M World unit :=
  on_state (fun s =>
    {| orders := v; selectedOrder := selectedOrder s;
       isOrderDetailsOpen := isOrderDetailsOpen s; isCreateOrderOpen := isCreateOrderOpen s;
       isDeleteDialogOpen := isDeleteDialogOpen s; currentStatus := currentStatus s;
       newOrder := newOrder s |}).
Definition setSelectedOrder (v : option Order.t) : M World unit :=
  on_state (fun s =>
    {| orders := orders s; selectedOrder := v;
       isOrderDetailsOpen := isOrderDetailsOpen s; isCreateOrderOpen := isCreateOrderOpen s;
       isDeleteDialogOpen := isDeleteDialogOpen s; currentStatus := currentStatus s;
       newOrder := newOrder s |}).
Definition setIsOrderDetailsOpen (v : bool) : M World unit :=
  on_state (fun s =>
    {| orders := orders s; selectedOrder := selectedOrder s;
       isOrderDetailsOpen := v; isCreateOrderOpen := isCreateOrderOpen s;
       isDeleteDialogOpen := isDeleteDialogOpen s; currentStatus := currentStatus s;
       newOrder := newOrder s |}).
Definition setIsDeleteDialogOpen (v : bool) : M World unit :=
  on_state (fun s =>
    {| orders := orders s; selectedOrder := selectedOrder s;
       isOrderDetailsOpen := isOrderDetailsOpen s; isCreateOrderOpen := isCreateOrderOpen s;
       isDeleteDialogOpen := v; currentStatus := currentStatus s;
       newOrder := newOrder s |}).

(** A call of the orders API that resolves with an order. *)
Definition call (req : Request) (answer : Outcome Order.t) : M World (option Order.t) :=
  (emit (Sent req) ;;
   match answer with
   | Resolved v => ret v
   | Rejected e => throw e
   end)%js.

(** [api.orders.delete(id)] resolves with [undefined]. *)
Definition call_delete (id : Z) (answer : Outcome unit) : M World (option unit) :=
  (emit (Sent (Delete id)) ;;
   match answer with
   | Resolved _ => ret None
   | Rejected e => throw e
   end)%js.


(** [orders.filter((order) => order.id !== orderId)] *)
Definition without_order (orderId : Z) (l : list Order.t) : list Order.t :=
  List.filter (fun order => negb (Order.id order =? orderId)) l.


(** [handleDeleteOrder()]: the result of the call is not looked at. *)
Definition handleDeleteOrder (respond : Z -> Outcome unit) (r : State) : M World unit :=
  match selectedOrder r with
  | None => ret tt
  | Some selected =>
      (UseApi.executeApiCall on_hook
         (call_delete (Order.id selected) (respond (Order.id selected))) ;;
       setOrders (without_order (Order.id selected) (orders r)) ;;
       setSelectedOrder None ;;
       setIsOrderDetailsOpen false ;;
       setIsDeleteDialogOpen false ;;
       toast {| title := "Success";
                description := "Order deleted successfully";
                variant := Default |})%js
  end.

Definition emptyOrder : NewOrder :=
  {| tableId := 0; guestName := ""; items := [] |}.



(** The world in which a handler of the render [r] runs. *)
Definition at_render (r : State) : World :=
  {| state := r;
     hook := {| UseApi.isLoading := false; UseApi.error := None |};
     log := [] |}.

Definition sent_requests (l : list Event) : list Request :=
  flat_map (fun e => match e with Sent req => [req] | _ => [] end) l.
Definition shown_toasts (l : list Event) : list ToastMsg :=
  flat_map (fun e => match e with Toast t => [t] | _ => [] end) l.

(** *** Names, prices and the subtotal of the draft *)

Definition getProductName (products : list Product.t) (productId : Z) : string :=
  match find (fun p => Product.id p =? productId) products with
  | Some product => Product.name product
  | None => ("Product #" ++ Js.toString productId)%string
  end.

Definition getProductPrice (products : list Product.t) (productId : Z) : float :=
  match find (fun p => Product.id p =? productId) products with
  | Some product => Product.price product
  | None => 0%float
  end.

Definition calculateSubtotal (products : list Product.t) (draft : NewOrder) : float :=
  fold_left (fun total item =>
               let price := getProductPrice products (productId item) in
               (total + price * Js.number (quantity item))%float)
            (items draft) 0%float.

(** The products at 0.10, 0.20 and 0.30, and a draft with one of each,
    the first selected once more. *)
Definition small_change_products : list Product.t :=
  map Menu.product Menu.small_change_cart.
Definition small_change_form : Orders.Form :=
  {| Orders.newOrder :=
       {| tableId := 4; guestName := "";
          items := [ {| productId := 1; quantity := 1 |};
                     {| productId := 2; quantity := 1 |};
                     {| productId := 3; quantity := 1 |} ] |};
     Orders.selectedProduct := Some 1;
     Orders.selectedQuantity := 1 |}.

(** The effect that filters the orders by the selected table. *)
Definition filteredOrders (orders : list Order.t) (selectedTableFilter : option Z)
    : list Order.t :=
  match selectedTableFilter with
  | None => orders
  | Some table => List.filter (fun order => Order.tableId order =? table) orders
  end.

End OrdersPage.

(** ** Repeated quick updates *)
Module StatusChain.

(** The status after [n] quick updates that all went through, or [None]
    when one of them found no successor. *)
Fixpoint advance (n : nat) (status : string) : option string :=
  match n with
  | O => Some status
  | S n' =>
      match Orders.nextStatus status with
      | Some next => advance n' next
      | None => None
      end
  end.

End StatusChain.

(** ** Status labels and badges *)
Module StatusDisplay.

(** [<Badge className=...>label</Badge>] *)
Record Badge := {
  className : option string;
  label : string
}.

(** [getStatusBadge], the same in [order-details.tsx] and in the orders
    page. *)
Definition getStatusBadge (status : string) : Badge :=
  if (status =? "new")%string then {| className := Some "bg-blue-500"; label := "New" |}
  else if (status =? "preparing")%string
  then {| className := Some "bg-yellow-500"; label := "Preparing" |}
  else if (status =? "ready")%string
  then {| className := Some "bg-green-500"; label := "Ready" |}
  else if (status =? "delivered")%string
  then {| className := Some "bg-purple-500"; label := "Delivered" |}
  else if (status =? "paid")%string
  then {| className := Some "bg-gray-500"; label := "Paid" |}
  else {| className := None; label := "Unknown" |}.

(** [getNextStatusLabel] of [order-details.tsx]. *)
Definition getNextStatusLabel (currentStatus : string) : string :=
  if (currentStatus =? "new")%string then "Start Preparing"
  else if (currentStatus =? "preparing")%string then "Mark as Ready"
  else if (currentStatus =? "ready")%string then "Mark as Delivered"
  else if (currentStatus =? "delivered")%string then "Mark as Paid"
  else "Update Status".

(** The status button is rendered when [getNextStatus(order.status)] is
    truthy. *)
Definition showsStatusButton (status : string) : bool :=
  match OrderDetails.getNextStatus status with
  | Some next => Js.truthy next
  | None => false
  end.

End StatusDisplay.

(** ** [hooks/use-order-api.ts] *)
Module UseOrderApi.

Record State := {
  orders : list Order.t;
  filteredOrders : list Order.t;
  currentStatus : option string
}.

Inductive Request :=
| GetByTable (tableId : Z)
| Delete (id : Z)
| Create (tableId : Z) (items : list (Z * Z)).

Record World := {
  state : State;
  hook : UseApi.Hook;
  requests : list Request
}.

Definition on_hook (f : UseApi.Hook -> UseApi.Hook) (w : World) : World :=
  {| state := state w; hook := f (hook w); requests := requests w |}.
Definition setOrders (v : list Order.t) : M World unit :=
  modify (fun w =>
    {| state := {| orders := v; filteredOrders := filteredOrders (state w);
                   currentStatus := currentStatus (state w) |};
       hook := hook w; requests := requests w |}).

Definition call {A} (req : Request) (answer : Outcome A) : M World (option A) :=
  (modify (fun w => {| state := state w; hook := hook w;
                       requests := requests w ++ [req] |}) ;;
   match answer with
   | Resolved v => ret v
   | Rejected e => throw e
   end)%js.

(** The hook at rest with no orders; order 2 of table 5, paid. *)
Definition at_rest : World :=
  {| state := {| orders := []; filteredOrders := []; currentStatus := None |};
     hook := {| UseApi.isLoading := false; UseApi.error := None |};
     requests := [] |}.
Definition settled_order : Order.t :=
  {| Order.id := 2; Order.tableId := 5; Order.userId := 0; Order.status := "paid";
     Order.items := []; Order.total := 12%float; Order.orderDate := "" |}.

(** [getCurrentOrderForTable(tableId)]: the first order of the table
    that is not paid. *)
Definition getCurrentOrderForTable (respond : Z -> Outcome (list Order.t)) (tableId : Z)
    : M World (option Order.t) :=
  try_catch_finally
    (result <- UseApi.executeApiCall on_hook (call (GetByTable tableId) (respond tableId)) ;;
     match result with
     | Some listed =>
         if 0 <? Z.of_nat (length listed)
         then ret (find (fun order => negb (Order.status order =? "paid")%string) listed)
         else ret None
     | None => ret None
     end)%js
    (fun _ => ret None)
    (ret tt).

(** [deleteOrder(id)] for the render that captured [rendered]: the call
    given to [executeApiCall] resolves with [true]. *)
Definition deleteOrder (respond : Z -> Outcome unit) (rendered : list Order.t) (id : Z)
    : M World bool :=
  (success <- UseApi.executeApiCall on_hook
                (deleted <- call (Delete id) (respond id) ;; ret (Some true)) ;;
   match success with
   | Some true =>
       setOrders (List.filter (fun order => negb (Order.id order =? id)) rendered) ;;
       ret true
   | _ => ret false
   end)%js.

(** [createOrder(orderData)]: the created order goes to the end of the
    list. *)
Definition createOrder (respond : Z -> list (Z * Z) -> Outcome Order.t)
    (rendered : list Order.t) (tableId : Z) (items : list (Z * Z))
    : M World (option Order.t) :=
  (result <- UseApi.executeApiCall on_hook
               (call (Create tableId items) (respond tableId items)) ;;
   match result with
   | Some created => setOrders (rendered ++ [created]) ;; ret (Some created)
   | None => ret None
   end)%js.

(** The effect that filters the orders by the current status. *)
Definition filtered (orders : list Order.t) (currentStatus : option string) : list Order.t :=
  match currentStatus with
  | Some status =>
      if Js.truthy status
      then List.filter (fun order => (Order.status order =? status)%string) orders
      else orders
  | None => orders
  end.

End UseOrderApi.

(** ** The effect that shows the error of the hook

    [app/menu/page.tsx] and [app/dashboard/orders/page.tsx] both hold
    [useEffect(() => { if (error) toast({ title: "Error", description:
    error, variant: "destructive" }) }, [error, toast])], where [error]
    is the error of [useApi] and [toast] does not change. *)
Module ErrorEffect.

Definition error_toast (message : string) : ToastMsg :=
  {| title := "Error"; description := message; variant := Destructive |}.

(** The body of the effect, for the error of the render. *)
Definition body (error : option string) : list ToastMsg :=
  match error with
  | Some message => if Js.truthy message then [error_toast message] else []
  | None => []
  end.

(** The body runs after a render whose error is not the error of the
    render before. *)
Definition after_render (previous current : option string) : list ToastMsg :=
  if decide (previous = current) then [] else body current.

(** The toasts of the effect once a handler is through, from the hook
    of the render in which the handler was made to the hook it leaves.
    ([executeApiCall] first sets the error to [null]; a render with
    that error shows nothing.) *)
Definition shown (before after : UseApi.Hook) : list ToastMsg :=
  after_render (UseApi.error before) (UseApi.error after).

(** The toasts of the effect over successive renders, from the error
    each of them had. *)
Fixpoint over_renders (previous : option string) (errors : list (option string))
    : list ToastMsg :=
  match errors with
  | [] => []
  | current :: rest => after_render previous current ++ over_renders current rest
  end.

(** A handler that runs [executeApiCall] once, from a hook with any
    error: one render with the error set to [null], one with the error
    the call left. *)
Definition after_call (before after : UseApi.Hook) : list ToastMsg :=
  over_renders (UseApi.error before) [None; UseApi.error after].

End ErrorEffect.

(** * Properties *)

(** ** The guest cart *)
Section Cart.
Import Menu.

Lemma find_absent pid cart :
  ~ In pid (ids cart) -> find (fun item => item_id item =? pid) cart = None.
Proof.
  induction cart as [|x cart IH]; simpl; intros Hn; [reflexivity|].
  destruct (Z.eqb_spec (item_id x) pid) as [E|E]; [tauto|].
  apply IH. tauto.
Qed.

Lemma find_present pid cart :
  In pid (ids cart) ->
  exists l, find (fun item => item_id item =? pid) cart = Some l /\ item_id l = pid /\ In l cart.
Proof.
  induction cart as [|x cart IH]; simpl; intros Hin; [tauto|].
  destruct (Z.eqb_spec (item_id x) pid) as [E|E].
  - exists x. auto.
  - destruct Hin as [Hx|Hin]; [congruence|].
    destruct (IH Hin) as (l & Hf & Hl & Hi). exists l. auto.
Qed.

Lemma find_some_id pid cart l :
  find (fun item => item_id item =? pid) cart = Some l -> item_id l = pid /\ In l cart.
Proof.
  intros H. apply List.find_some in H. destruct H as [Hi He].
  apply Z.eqb_eq in He. auto.
Qed.

Lemma map_absent pid (f : CartItem -> CartItem) cart :
  ~ In pid (ids cart) ->
  map (fun item => if item_id item =? pid then f item else item) cart = cart.
Proof.
  induction cart as [|x cart IH]; simpl; intros Hn; [reflexivity|].
  destruct (Z.eqb_spec (item_id x) pid) as [E|E]; [tauto|].
  f_equal. apply IH. tauto.
Qed.

Lemma filter_absent pid cart :
  ~ In pid (ids cart) ->
  List.filter (fun item => negb (item_id item =? pid)) cart = cart.
Proof.
  induction cart as [|x cart IH]; simpl; intros Hn; [reflexivity|].
  destruct (Z.eqb_spec (item_id x) pid) as [E|E]; [tauto|]. simpl.
  f_equal. apply IH. tauto.
Qed.

(** Where the ids are pairwise distinct, the line of an id splits the
    cart into lines of other ids before and after it. *)
Lemma unique_split cart pre l post :
  List.NoDup (ids cart) -> cart = pre ++ l :: post ->
  ~ In (item_id l) (ids pre) /\ ~ In (item_id l) (ids post).
Proof.
  intros Hnd ->. unfold ids in *. rewrite List.map_app in Hnd. simpl in Hnd.
  apply List.NoDup_remove_2 in Hnd. rewrite List.in_app_iff in Hnd. tauto.
Qed.

Lemma map_at_line (f : CartItem -> CartItem) pre l post :
  ~ In (item_id l) (ids pre) -> ~ In (item_id l) (ids post) ->
  map (fun item => if item_id item =? item_id l then f item else item) (pre ++ l :: post)
  = pre ++ f l :: post.
Proof.
  intros Hpre Hpost. rewrite List.map_app. simpl. rewrite Z.eqb_refl.
  rewrite (map_absent _ f pre Hpre), (map_absent _ f post Hpost). reflexivity.
Qed.

Lemma filter_at_line pre l post :
  ~ In (item_id l) (ids pre) -> ~ In (item_id l) (ids post) ->
  List.filter (fun item => negb (item_id item =? item_id l)) (pre ++ l :: post)
  = pre ++ post.
Proof.
  intros Hpre Hpost. rewrite List.filter_app. simpl. rewrite Z.eqb_refl. simpl.
  rewrite (filter_absent _ pre Hpre), (filter_absent _ post Hpost). reflexivity.
Qed.

Lemma find_at_line pre l post :
  ~ In (item_id l) (ids pre) ->
  find (fun item => item_id item =? item_id l) (pre ++ l :: post) = Some l.
Proof.
  induction pre as [|x pre IH]; simpl; intros Hn.
  - rewrite Z.eqb_refl. reflexivity.
  - destruct (Z.eqb_spec (item_id x) (item_id l)) as [E|E]; [tauto|].
    apply IH. tauto.
Qed.

Lemma ids_map_quantity pid (f : CartItem -> Z) cart :
  ids (map (fun item => if item_id item =? pid
                        then with_quantity item (f item)
                        else item) cart) = ids cart.
Proof.
  induction cart as [|x cart IH]; simpl; [reflexivity|].
  rewrite IH. destruct (item_id x =? pid); reflexivity.
Qed.

Lemma ids_filter_incl pid cart z :
  In z (ids (List.filter (fun item => negb (item_id item =? pid)) cart)) -> In z (ids cart).
Proof.
  unfold ids. rewrite !List.in_map_iff. intros (x & Hx & Hin).
  apply List.filter_In in Hin. exists x. tauto.
Qed.

Lemma NoDup_ids_filter pid cart :
  List.NoDup (ids cart) -> List.NoDup (ids (List.filter (fun item => negb (item_id item =? pid)) cart)).
Proof.
  induction cart as [|x cart IH]; simpl; intros Hnd; [constructor|].
  inversion Hnd as [|? ? Hx Hrest]; subst.
  destruct (item_id x =? pid); simpl; [auto|].
  constructor; [|auto]. intros Hin. apply Hx. eapply ids_filter_incl, Hin.
Qed.

Lemma addToCart_unique p cart : List.NoDup (ids cart) -> List.NoDup (ids (addToCart p cart)).
Proof.
  intros Hnd. unfold addToCart.
  destruct (find _ cart) eqn:Hf.
  - rewrite (ids_map_quantity (Product.id p) (fun item => quantity item + 1)). exact Hnd.
  - unfold ids. rewrite List.map_app. simpl.
    apply List.NoDup_app; [exact Hnd | constructor; [simpl; tauto | constructor] |].
    intros z Hz [<-|[]]. change (In (Product.id p) (ids cart)) in Hz.
    destruct (find_present _ _ Hz) as (l & Hl & _). congruence.
Qed.

Lemma removeFromCart_unique pid cart :
  List.NoDup (ids cart) -> List.NoDup (ids (removeFromCart pid cart)).
Proof.
  intros Hnd. unfold removeFromCart.
  destruct (find _ cart) as [l|]; [destruct (1 <? quantity l)|].
  - rewrite (ids_map_quantity pid (fun item => quantity item - 1)). exact Hnd.
  - apply NoDup_ids_filter, Hnd.
  - apply NoDup_ids_filter, Hnd.
Qed.

(** Every cart the page can hold has one line per product id. *)
Lemma reachable_unique cart : reachable cart -> List.NoDup (ids cart).
Proof.
  induction 1 as [|p cart _ IH|pid cart _ IH].
  - constructor.
  - apply addToCart_unique, IH.
  - apply removeFromCart_unique, IH.
Qed.

Lemma getTotalItems_from acc cart :
  fold_left (fun total item => total + quantity item) cart acc
  = acc + sum_of_quantities cart.
Proof.
  revert acc. induction cart as [|x cart IH]; simpl; intros acc; [lia|].
  rewrite IH. lia.
Qed.

Lemma getTotalPrice_app cart item :
  getTotalPrice (cart ++ [item])
  = (getTotalPrice cart
     + Product.price (product item) * Js.number (quantity item))%float.
Proof. unfold getTotalPrice. rewrite fold_left_app. reflexivity. Qed.




Lemma addToCart_present_at p pre l post :
  item_id l = Product.id p ->
  ~ In (Product.id p) (ids pre) -> ~ In (Product.id p) (ids post) ->
  addToCart p (pre ++ l :: post) = pre ++ with_quantity l (quantity l + 1) :: post.
Proof.
  intros Hid Hpre Hpost. unfold addToCart. rewrite <- Hid in *.
  rewrite (find_at_line pre l post Hpre).
  apply (map_at_line (fun item => with_quantity item (quantity item + 1))); assumption.
Qed.

(** C4.  [addToCart p] on any cart: when a line has the id of [p], the
    cart keeps its length and every line with that id has its quantity
    raised by exactly 1, whatever the quantity was (no bound), the other
    lines staying as they are; with one line per id that is the one line
    of [p], in place.  When no line has the id, a line for [p] with
    quantity 1 is appended.  Adding a product twice to a cart without it
    gives one line with quantity 2, and a cart with one line per id keeps
    one line per id. *)
Theorem addToCart_spec (p : Product.t) (cart : list CartItem) :
  (In (Product.id p) (ids cart) ->
     length (addToCart p cart) = length cart /\
     forall i item, nth_error cart i = Some item ->
       nth_error (addToCart p cart) i =
       Some (if item_id item =? Product.id p
             then with_quantity item (quantity item + 1) else item)) /\
  (forall pre l post,
     List.NoDup (ids cart) -> cart = pre ++ l :: post -> item_id l = Product.id p ->
     addToCart p cart = pre ++ with_quantity l (quantity l + 1) :: post) /\
  (~ In (Product.id p) (ids cart) ->
     addToCart p cart = cart ++ [ {| product := p; quantity := 1 |} ] /\
     addToCart p (addToCart p cart) = cart ++ [ {| product := p; quantity := 2 |} ]) /\
  (List.NoDup (ids cart) -> List.NoDup (ids (addToCart p cart))).
Proof.
  split; [|split; [|split]].
  - intros Hin. destruct (find_present _ _ Hin) as (l & Hf & _).
    unfold addToCart. rewrite Hf. split; [apply List.length_map|].
    intros i item Hi. rewrite List.nth_error_map, Hi. reflexivity.
  - intros pre l post Hnd -> Hid.
    destruct (unique_split _ pre l post Hnd eq_refl) as [Hpre Hpost].
    rewrite Hid in Hpre, Hpost. apply addToCart_present_at; assumption.
  - intros Hn. assert (H1 : addToCart p cart = cart ++ [ {| product := p; quantity := 1 |} ]).
    { unfold addToCart. rewrite (find_absent _ _ Hn). reflexivity. }
    split; [exact H1|]. rewrite H1.
    apply (addToCart_present_at p cart {| product := p; quantity := 1 |} []);
      [reflexivity | exact Hn | simpl; tauto].
  - apply addToCart_unique.
Qed.

(** C5.  [removeFromCart productId] on a cart with a line for
    [productId] ([existing] is the line [find] returns): when its
    quantity is greater than 1 the cart keeps its length, the lines of
    [productId] keep their product and have the quantity less 1, and the
    other lines stay; when it is 1 the line is deleted.  With one line
    per id the cart is [pre ++ existing :: post] and becomes
    [pre ++ existing' :: post], where [existing'] is the product of
    [existing] with its quantity less 1, or [pre ++ post]. *)
Theorem removeFromCart_spec (productId : Z) (cart : list CartItem) (existing : CartItem) :
  find (fun item => item_id item =? productId) cart = Some existing ->
  (1 < quantity existing ->
     length (removeFromCart productId cart) = length cart /\
     forall i item, nth_error cart i = Some item ->
       nth_error (removeFromCart productId cart) i =
       Some (if item_id item =? productId
             then {| product := product item; quantity := quantity item - 1 |}
             else item)) /\
  (quantity existing = 1 ->
     ~ In productId (ids (removeFromCart productId cart)) /\
     removeFromCart productId cart
     = List.filter (fun item => negb (item_id item =? productId)) cart) /\
  (List.NoDup (ids cart) ->
     exists pre post,
       cart = pre ++ existing :: post /\
       (1 < quantity existing ->
          removeFromCart productId cart
          = pre ++ {| product := product existing;
                      quantity := quantity existing - 1 |} :: post) /\
       (quantity existing = 1 -> removeFromCart productId cart = pre ++ post)).
Proof.
  intros Hf. destruct (find_some_id _ _ _ Hf) as [Hid Hin].
  split; [|split].
  - intros Hq. unfold removeFromCart. rewrite Hf.
    apply Z.ltb_lt in Hq. rewrite Hq. split; [apply List.length_map|].
    intros i item Hi. rewrite List.nth_error_map, Hi. reflexivity.
  - intros Hq. unfold removeFromCart. rewrite Hf, Hq. simpl. split; [|reflexivity].
    unfold ids. rewrite List.in_map_iff. intros (x & Hx & Hxin).
    apply List.filter_In in Hxin. destruct Hxin as [_ Hne].
    apply Z.eqb_eq in Hx. rewrite Hx in Hne. discriminate.
  - intros Hnd. destruct (List.in_split _ _ Hin) as (pre & post & Hcart).
    exists pre, post. split; [exact Hcart|].
    destruct (unique_split _ pre existing post Hnd Hcart) as [Hpre Hpost].
    unfold removeFromCart. rewrite Hf. subst cart productId. split.
    + intros Hq. apply Z.ltb_lt in Hq. rewrite Hq.
      apply (map_at_line (fun item => with_quantity item (quantity item - 1))); assumption.
    + intros Hq. rewrite Hq. simpl. apply filter_at_line; assumption.
Qed.

Lemma addToCart_spec_witness :
  In (Product.id productA) (ids example_cart) /\
  nth_error (addToCart productA example_cart) 0
  = Some {| product := productA; quantity := 3 |}.
Proof.
  assert (Hin : In (Product.id productA) (ids example_cart)) by (simpl; auto).
  split; [exact Hin|].
  exact (proj2 (proj1 (addToCart_spec productA example_cart) Hin) 0%nat _ eq_refl).
Defined.

Lemma removeFromCart_spec_witness :
  (find (fun item => item_id item =? 1) example_cart
   = Some {| product := productA; quantity := 2 |} /\
   length (removeFromCart 1 example_cart) = 2%nat /\
   nth_error (removeFromCart 1 example_cart) 0
   = Some {| product := productA; quantity := 1 |} /\
   nth_error (removeFromCart 1 example_cart) 1
   = Some {| product := productB; quantity := 1 |}) /\
  (find (fun item => item_id item =? 2) example_cart
   = Some {| product := productB; quantity := 1 |} /\
   removeFromCart 2 example_cart = [ {| product := productA; quantity := 2 |} ]).
Proof.
  assert (H2 : 1 < quantity {| product := productA; quantity := 2 |}) by (simpl; lia).
  split.
  - split; [reflexivity|].
    destruct (proj1 (removeFromCart_spec 1 example_cart
                       {| product := productA; quantity := 2 |} eq_refl) H2)
      as [Hlen Hnth].
    split; [exact Hlen|]. split.
    + exact (Hnth 0%nat _ eq_refl).
    + exact (Hnth 1%nat _ eq_refl).
  - split; [reflexivity|].
    exact (proj2 (proj1 (proj2 (removeFromCart_spec 2 example_cart
                                  {| product := productB; quantity := 1 |} eq_refl))
                    eq_refl)).
Defined.

Lemma other_lines_map pid (f : CartItem -> CartItem) cart :
  (forall item, item_id (f item) = item_id item) ->
  other_lines pid (map (fun item => if item_id item =? pid then f item else item) cart)
  = other_lines pid cart.
Proof.
  intros Hf. unfold other_lines.
  induction cart as [|x cart IH]; simpl; [reflexivity|].
  destruct (item_id x =? pid) eqn:E.
  - rewrite Hf, E. simpl. exact IH.
  - rewrite E. simpl. f_equal. exact IH.
Qed.

Lemma other_lines_idem pid cart :
  other_lines pid (other_lines pid cart) = other_lines pid cart.
Proof.
  unfold other_lines. induction cart as [|x cart IH]; simpl; [reflexivity|].
  destruct (negb (item_id x =? pid)) eqn:E; simpl; [rewrite E, IH|]; auto.
Qed.

(** C10.  For every cart and product [p], the lines whose id differs
    from that of [p] are, after [addToCart p] and after
    [removeFromCart (id p)], the same lines (product and quantity) in
    the same order as before. *)
Theorem cart_frame (p : Product.t) (cart : list CartItem) :
  other_lines (Product.id p) (addToCart p cart) = other_lines (Product.id p) cart /\
  other_lines (Product.id p) (removeFromCart (Product.id p) cart)
  = other_lines (Product.id p) cart.
Proof.
  split.
  - unfold addToCart. destruct (find _ cart).
    + apply (other_lines_map _ (fun item => with_quantity item (quantity item + 1))).
      reflexivity.
    + unfold other_lines. rewrite List.filter_app. simpl.
      unfold item_id at 2. simpl. rewrite Z.eqb_refl. simpl. apply app_nil_r.
  - unfold removeFromCart.
    destruct (find _ cart) as [l|]; [destruct (1 <? quantity l)|].
    + apply (other_lines_map _ (fun item => with_quantity item (quantity item - 1))).
      reflexivity.
    + apply other_lines_idem.
    + apply other_lines_idem.
Qed.

End Cart.

(** ** The checkout of the guest page *)
Section Checkout.
Import Menu.

Lemma truthy_false s : Js.truthy s = false -> s = "".
Proof. destruct s; [reflexivity | discriminate]. Qed.

(** With the hook of [use-api.ts], a submission that passes the three
    checks runs the same steps whatever the server answers; only the
    toast and the stored error depend on the answer. *)
Lemma checkout_submitted respond r table :
  selectedTable r = Some table -> Js.truthy table = true ->
  cart_nonempty r = true -> name_present r = true ->
  let w := checkout respond r in
  cart (state w) = [] /\
  cartCustomerName (state w) = "" /\
  isCartOpen (state w) = false /\
  isPlacingOrder (state w) = false /\
  requests (log w) = [order_request table r] /\
  timers (log w) = [ {| push_url := ("/table-orders/" ++ table)%string; delay_ms := 1000 |} ] /\
  toasts (log w) =
    [ if failed (respond (order_request table r))
      then {| title := "Order Submitted";
              description := "Your order has been submitted. Please check with staff if you don't see it appear shortly.";
              variant := Destructive |}
      else success_toast (cartCustomerName r) table ].
Proof.
  intros Ht Htr Hc Hn. unfold checkout, handleCheckout, handleCheckout_with.
  rewrite Ht, Htr. unfold cart_nonempty in Hc. unfold name_present in Hn.
  destruct (cart r) as [|x rest] eqn:Ec; [discriminate|].
  rewrite Hn. cbn [negb orb length Z.of_nat Z.eqb].
  unfold try_catch_finally, bind, UseApi.executeApiCall, orders_create, bind,
    try_catch_finally, modify, ret, throw, emit, at_render.
  cbn -[order_request success_toast String.append].
  destruct (respond (order_request table r)) as [[o|]|e];
    cbn -[order_request success_toast String.append]; repeat split; reflexivity.
Qed.

Lemma timers_app l1 l2 : timers (l1 ++ l2) = timers l1 ++ timers l2.
Proof. unfold timers. apply List.flat_map_app. Qed.

Lemma toasts_app l1 l2 : toasts (l1 ++ l2) = toasts l1 ++ toasts l2.
Proof. unfold toasts. apply List.flat_map_app. Qed.

Lemma requests_app l1 l2 : requests (l1 ++ l2) = requests l1 ++ requests l2.
Proof. unfold requests. apply List.flat_map_app. Qed.

Lemma bind_modify {W B} (f : W -> W) (k : unit -> M W B) w :
  bind (modify f) k w = k tt (f w).
Proof. reflexivity. Qed.

Lemma bind_throw {W A B} (c : M W A) (k : A -> M W B) w e w1 :
  c w = (Throw e, w1) -> bind c k w = (Throw e, w1).
Proof. intros H. unfold bind. rewrite H. reflexivity. Qed.

Lemma try_throw {W A} (body : M W A) handler (cleanup : M W unit) w e w1 :
  body w = (Throw e, w1) ->
  try_catch_finally body handler cleanup w =
  (let '(r, w2) := handler e w1 in
   match cleanup w2 with
   | (Normal _, w3) => (r, w3)
   | (Throw e', w3) => (Throw e', w3)
   end).
Proof. intros H. unfold try_catch_finally. rewrite H. reflexivity. Qed.

(** The [catch] block: reached when the [executeApiCall] given to the
    handler throws. *)
Lemma checkout_caught exec create r table e w1 :
  selectedTable r = Some table -> Js.truthy table = true ->
  cart_nonempty r = true -> name_present r = true ->
  exec (create (order_request table r)) (snd (setIsPlacingOrder true (at_render r)))
    = (Throw e, w1) ->
  let w := snd (handleCheckout_with exec create r (at_render r)) in
  cart (state w) = [] /\
  isPlacingOrder (state w) = false /\
  toasts (log w) = toasts (log w1) ++
    [ {| title := "Order Submission Error";
         description := "There was an issue submitting your order. Please try again or contact staff.";
         variant := Destructive |} ] /\
  timers (log w) = timers (log w1) ++
    [ {| push_url := ("/table-orders/" ++ table)%string; delay_ms := 2000 |} ].
Proof.
  intros Ht Htr Hc Hn Hthrow w.
  eassert (Hw : w = _).
  { subst w. unfold handleCheckout_with.
    rewrite Ht, Htr. unfold cart_nonempty in Hc. unfold name_present in Hn.
    destruct (cart r) as [|x rest] eqn:Ec; [discriminate|].
    rewrite Hn. change (Z.of_nat (length (x :: rest)) =? 0) with false.
    cbn [negb orb]. unfold setIsPlacingOrder at 1. rewrite bind_modify.
    erewrite try_throw by (apply bind_throw; exact Hthrow).
    cbn -[String.append]. reflexivity. }
  rewrite Hw. cbn -[String.append].
  rewrite <- !app_assoc, timers_app, toasts_app.
  repeat split; reflexivity.
Qed.

(** C1, amended.  When a submission that passed the checks does not
    succeed (the call rejects, or resolves to a falsy value), the cart
    is cleared, one toast is shown, of the destructive variant and not
    the success toast, and the page navigates to the table view of the
    successful case -- after the same 1000 ms as in the successful case,
    because [executeApiCall] turns a rejection into [null].  The longer
    delay of 2000 ms is that of the [catch] block, which runs only when
    the [executeApiCall] given to the handler itself throws. *)
Theorem checkout_failure respond r table :
  selectedTable r = Some table -> Js.truthy table = true ->
  cart_nonempty r = true -> name_present r = true ->
  failed (respond (order_request table r)) = true ->
  let w := checkout respond r in
  let destination := ("/table-orders/" ++ table)%string in
  cart (state w) = [] /\
  (exists t, toasts (log w) = [t] /\ variant t = Destructive /\
             t <> success_toast (cartCustomerName r) table) /\
  timers (log w) = [ {| push_url := destination; delay_ms := 1000 |} ] /\
  (forall respond_ok,
     failed (respond_ok (order_request table r)) = false ->
     toasts (log (checkout respond_ok r)) = [success_toast (cartCustomerName r) table] /\
     timers (log (checkout respond_ok r)) = timers (log w)) /\
  (forall exec create e w1,
     exec (create (order_request table r)) (snd (setIsPlacingOrder true (at_render r)))
       = (Throw e, w1) ->
     let w' := snd (handleCheckout_with exec create r (at_render r)) in
     cart (state w') = [] /\
     timers (log w') = timers (log w1) ++ [ {| push_url := destination; delay_ms := 2000 |} ]).
Proof.
  intros Ht Htr Hc Hn Hfail w destination.
  destruct (checkout_submitted respond r table Ht Htr Hc Hn)
    as (Hcart & _ & _ & _ & _ & Htimers & Htoasts).
  fold w in Hcart, Htimers, Htoasts. rewrite Hfail in Htoasts.
  split; [exact Hcart|]. split.
  { eexists. split; [exact Htoasts|]. split; [reflexivity|]. discriminate. }
  split; [exact Htimers|]. split.
  - intros respond_ok Hok.
    destruct (checkout_submitted respond_ok r table Ht Htr Hc Hn)
      as (_ & _ & _ & _ & _ & Htimers' & Htoasts').
    rewrite Hok in Htoasts'. rewrite Htimers. split; assumption.
  - intros exec create e w1 Hthrow.
    destruct (checkout_caught exec create r table e w1 Ht Htr Hc Hn Hthrow)
      as (Hcart' & _ & _ & Htimers').
    split; assumption.
Qed.

(** C2.  When the cart is empty, or no table is selected, or the guest
    name is empty after trimming, [handleCheckout] returns having shown
    one toast of the destructive variant and nothing else: no request is
    issued, no timer is set, and the state, the cart with it, is what it
    was. *)
Theorem checkout_validation respond r w0 :
  cart r = [] \/ table_selected r = false \/ Js.trim (cartCustomerName r) = "" ->
  let result := handleCheckout respond r w0 in
  fst result = Normal tt /\
  state (snd result) = state w0 /\
  cart (state (snd result)) = cart (state w0) /\
  hook (snd result) = hook w0 /\
  requests (log (snd result)) = requests (log w0) /\
  timers (log (snd result)) = timers (log w0) /\
  exists t, log (snd result) = log w0 ++ [Toast t] /\ variant t = Destructive.
Proof.
  intros Hpre.
  assert (Hshape : exists t, handleCheckout respond r w0
            = (Normal tt, {| state := state w0; hook := hook w0;
                             log := log w0 ++ [Toast t] |})
            /\ variant t = Destructive).
  { unfold handleCheckout, handleCheckout_with, table_selected in *.
    destruct (selectedTable r) as [table|]; [|eexists; split; reflexivity].
    destruct (Js.truthy table); [|eexists; split; reflexivity].
    destruct (cart r) as [|x rest]; [eexists; split; reflexivity|].
    destruct Hpre as [Hpre|[Hpre|Hpre]]; try discriminate.
    rewrite Hpre. eexists; split; reflexivity. }
  destruct Hshape as (t & Heq & Hv). cbv zeta. rewrite Heq. cbn [fst snd state hook log].
  rewrite requests_app, timers_app. cbn. rewrite !app_nil_r.
  repeat split; try reflexivity. exists t. split; [reflexivity | exact Hv].
Qed.

(** C1 as the specification words it fails on the code: when the server
    is down, and when it answers with an empty body, the page navigates
    after the 1000 ms of the successful case, not later. *)
Lemma checkout_failure_not_later :
  ~ failure_as_specified
      (checkout (fun _ => Rejected server_down) guest_state)
      (checkout (fun _ => Resolved (Some created_order)) guest_state) /\
  ~ failure_as_specified
      (checkout (fun _ => Resolved None) guest_state)
      (checkout (fun _ => Resolved (Some created_order)) guest_state).
Proof.
  split; intros (_ & _ & t_fail & t_ok & Hf & Hok & _ & Hlt);
    vm_compute in Hf, Hok; injection Hf as <-; injection Hok as <-;
    simpl in Hlt; lia.
Qed.

Lemma checkout_failure_witness :
  failed (Rejected server_down) = true /\
  cart (state (checkout (fun _ => Rejected server_down) guest_state)) = [] /\
  timers (log (checkout (fun _ => Rejected server_down) guest_state))
  = [ {| push_url := "/table-orders/5"; delay_ms := 1000 |} ].
Proof.
  split; [reflexivity|].
  pose proof (checkout_failure (fun _ => Rejected server_down) guest_state "5"
                eq_refl eq_refl eq_refl eq_refl eq_refl) as H.
  cbv zeta in H. destruct H as (Hcart & _ & Htimers & _).
  split; [exact Hcart | exact Htimers].
Defined.

Lemma checkout_validation_witness :
  cart empty_handed = [] /\
  requests (log (snd (handleCheckout (fun _ => Resolved (Some created_order))
                        empty_handed (at_render empty_handed))))
  = [].
Proof.
  split; [reflexivity|].
  exact (proj1 (proj2 (proj2 (proj2 (proj2
           (checkout_validation (fun _ => Resolved (Some created_order)) empty_handed
              (at_render empty_handed) (or_introl eq_refl))))))).
Defined.

End Checkout.

(** ** The status sequence *)
Section Status.
Import Orders.

Lemma nextStatus_cases s s' :
  nextStatus s = Some s' ->
  (s = "new" /\ s' = "preparing") \/ (s = "preparing" /\ s' = "ready") \/
  (s = "ready" /\ s' = "delivered") \/ (s = "delivered" /\ s' = "paid").
Proof.
  unfold nextStatus.
  destruct (String.eqb_spec s "new"); [intros [= <-]; auto|].
  destruct (String.eqb_spec s "preparing"); [intros [= <-]; auto|].
  destruct (String.eqb_spec s "ready"); [intros [= <-]; auto|].
  destruct (String.eqb_spec s "delivered"); [intros [= <-]; auto 6|].
  discriminate.
Qed.

Lemma status_updates_app l1 l2 :
  status_updates (l1 ++ l2) = status_updates l1 ++ status_updates l2.
Proof. unfold status_updates. apply List.flat_map_app. Qed.

(** A quick update from a status that has a successor issues the one
    request that sets the successor. *)
Lemma quick_update_request respond rendered orderId s s' w :
  nextStatus s = Some s' ->
  status_updates (log (snd (handleQuickStatusUpdate respond rendered orderId s w)))
  = status_updates (log w) ++ [(orderId, s')].
Proof.
  intros Hn. unfold handleQuickStatusUpdate. rewrite Hn.
  unfold UseApi.executeApiCall, orders_updateStatus, try_catch_finally, bind,
    modify, ret, throw, emit, setOrders.
  cbn -[String.append status_updates].
  destruct (respond orderId s') as [[o|]|e];
    cbn -[String.append status_updates];
    rewrite ?status_updates_app; cbn; rewrite ?app_nil_r; reflexivity.
Qed.

(** C6.  The successor of each status of the sequence new, preparing,
    ready, delivered, paid is the next status of the sequence, and
    [paid], the last, has none: [nextStatus s] is [s'] exactly when [s']
    follows [s] in the sequence.  A quick update from [paid] does
    nothing; from a status with a successor it requests that successor.
    [getNextStatus] of the order details is the same function. *)
Theorem status_successor :
  List.NoDup statusSequence /\
  map nextStatus statusSequence
    = [Some "preparing"; Some "ready"; Some "delivered"; Some "paid"; None] /\
  (forall s s',
     nextStatus s = Some s' <->
     exists i, nth_error statusSequence i = Some s /\
               nth_error statusSequence (S i) = Some s') /\
  nextStatus "new" = Some "preparing" /\
  nextStatus "paid" = None /\
  (forall s, OrderDetails.getNextStatus s = nextStatus s) /\
  (forall respond rendered orderId w,
     handleQuickStatusUpdate respond rendered orderId "paid" w = (Normal tt, w)) /\
  (forall respond rendered orderId s s' w,
     nextStatus s = Some s' ->
     status_updates (log (snd (handleQuickStatusUpdate respond rendered orderId s w)))
     = status_updates (log w) ++ [(orderId, s')]).
Proof.
  split.
  { unfold statusSequence.
    repeat (constructor; [simpl; intuition discriminate|]).
    constructor. }
  split; [reflexivity|]. split.
  { intros s s'. split.
    - intros H. destruct (nextStatus_cases s s' H) as [[-> ->]|[[-> ->]|[[-> ->]|[-> ->]]]].
      + exists 0%nat. split; reflexivity.
      + exists 1%nat. split; reflexivity.
      + exists 2%nat. split; reflexivity.
      + exists 3%nat. split; reflexivity.
    - intros (i & Hi & Hsi).
      do 5 (destruct i as [|i]; [simpl in Hi, Hsi; try discriminate;
                                injection Hi as <-; injection Hsi as <-; reflexivity|]).
      destruct i; discriminate. }
  split; [reflexivity|]. split; [reflexivity|]. split; [reflexivity|].
  split; [reflexivity|]. apply quick_update_request.
Qed.

Lemma status_successor_witness :
  nth_error statusSequence 2 = Some "ready" /\
  nth_error statusSequence 3 = Some "delivered" /\
  nextStatus "ready" = Some "delivered".
Proof.
  split; [reflexivity|]. split; [reflexivity|].
  apply (proj1 (proj2 (proj2 status_successor))).
  exists 2%nat. split; reflexivity.
Defined.

End Status.

(** ** The API client *)
Section Client.
Import Axios Api.

Lemma evictions_app l1 l2 : evictions (l1 ++ l2) = (evictions l1 + evictions l2)%nat.
Proof. unfold evictions. rewrite List.filter_app. apply List.length_app. Qed.

Lemma redirects_app href l1 l2 :
  redirects href (l1 ++ l2) = (redirects href l1 + redirects href l2)%nat.
Proof. unfold redirects. rewrite List.filter_app. apply List.length_app. Qed.

(** C7.  In the browser, on a response with status 401 from whatever
    endpoint, the rejection handler of the response interceptor removes
    the stored token and sets the location to the login view, once
    each, and rejects with the error it was given. *)
Theorem unauthorized_response (R : Type) (error : AxiosError) (r : Response) (b : Browser) :
  response error = Some r -> status r = 401 -> has_window b = true ->
  let result := @onRejected R error b in
  fst result = Throw (AxiosErr error) /\
  events (snd result) = events b ++ [RemoveItem "auth_token"; Navigate "/login"] /\
  evictions (events (snd result)) = S (evictions (events b)) /\
  redirects "/login" (events (snd result)) = S (redirects "/login" (events b)) /\
  tokenService.getToken (snd result) = None /\
  location_href (snd result) = "/login".
Proof.
  intros Hr Hs Hw result.
  assert (Hres : result =
    (Throw (AxiosErr error),
     {| has_window := true;
        localStorage := delete "auth_token" (localStorage b);
        location_href := "/login";
        events := (events b ++ [RemoveItem "auth_token"]) ++ [Navigate "/login"] |})).
  { subst result. unfold onRejected, response_status_is. rewrite Hr, Hs.
    unfold bind, tokenService.removeToken, modify, throw, set_location_href.
    cbn. rewrite Hw. cbn. reflexivity. }
  rewrite Hres. cbn [fst snd events location_href].
  split; [reflexivity|]. split; [rewrite <- app_assoc; reflexivity|].
  rewrite !evictions_app, !redirects_app. cbn.
  split; [lia|]. split; [lia|]. split; [|reflexivity].
  unfold tokenService.getToken. cbn. apply lookup_delete_eq.
Qed.

(** A token is cached only where there is a [window]. *)
Lemma cached_token_in_browser (b : Browser) token :
  tokenService.getToken b = Some token -> has_window b = true.
Proof. unfold tokenService.getToken. destruct (has_window b); [reflexivity | discriminate]. Qed.

(** Other rejections pass through the handler without any effect. *)
Lemma other_rejections (R : Type) (error : AxiosError) (b : Browser) :
  response_status_is error 401 = false ->
  @onRejected R error b = (Throw (AxiosErr error), b).
Proof. intros H. unfold onRejected. rewrite H. reflexivity. Qed.

(** Where there is no [window] the handler only rejects. *)
Lemma unauthorized_without_window (R : Type) (error : AxiosError) (b : Browser) :
  has_window b = false ->
  @onRejected R error b = (Throw (AxiosErr error), b).
Proof.
  intros Hw. unfold onRejected.
  destruct (response_status_is error 401); [|reflexivity].
  unfold bind, tokenService.removeToken, modify, throw. rewrite Hw. cbn.
  rewrite Hw. reflexivity.
Qed.

Lemma no_structured_body_falls_through r :
  no_structured_body r = true -> structuredMessage r = None.
Proof.
  unfold no_structured_body, structuredMessage.
  destruct (data r) as [body|]; [|reflexivity].
  destruct (error body) as [e|], (details body) as [[d|fields]|]; cbn;
    try destruct (Js.truthy e); try destruct (Js.truthy d); cbn;
    try discriminate; reflexivity.
Qed.

(** C8.  [handleApiError] maps an HTTP error response without a
    structured error body to [statusMessage] of its status code alone:
    a message of its own for 400, 401, 403, 404 and 500, and "Error: "
    followed by the code for any other.  A thrown value that is not an
    axios error maps to its message when it is an [Error], and to
    "An unknown error occurred" otherwise. *)
Theorem handleApiError_messages :
  (forall e r,
     message e <> "Network Error" -> response e = Some r ->
     no_structured_body r = true ->
     handleApiError (AxiosErr e) = statusMessage (status r)) /\
  statusMessage 400 = "Bad request. Please check your input." /\
  statusMessage 401 = "Unauthorized. Please log in again." /\
  statusMessage 403 = "Forbidden. You do not have permission to access this resource." /\
  statusMessage 404 = "Resource not found." /\
  statusMessage 500 = "Server error. Please try again later." /\
  (forall code,
     code <> 400 -> code <> 401 -> code <> 403 -> code <> 404 -> code <> 500 ->
     statusMessage code = ("Error: " ++ Js.toString code)%string) /\
  statusMessage 503 = "Error: 503" /\
  (forall m, handleApiError (ErrorObj m) = m) /\
  (forall v, handleApiError (NonError v) = "An unknown error occurred").
Proof.
  split.
  { intros e r Hm Hr Hb. unfold handleApiError.
    apply String.eqb_neq in Hm. rewrite Hm, Hr.
    rewrite (no_structured_body_falls_through r Hb). reflexivity. }
  do 5 (split; [reflexivity|]). split.
  { intros code H0 H1 H3 H4 H5. unfold statusMessage.
    repeat match goal with
           | |- context [code =? ?n] => destruct (Z.eqb_spec code n); [contradiction|]
           end.
    reflexivity. }
  split; [reflexivity|]. split; reflexivity.
Qed.

Lemma unauthorized_response_witness :
  has_window logged_in = true /\
  tokenService.getToken logged_in = Some "secret" /\
  tokenService.getToken (snd (@onRejected unit unauthorized logged_in)) = None /\
  redirects "/login" (events (snd (@onRejected unit unauthorized logged_in))) = 1%nat.
Proof.
  split; [reflexivity|]. split; [reflexivity|].
  pose proof (unauthorized_response unit unauthorized
                {| status := 401; data := None |} logged_in
                eq_refl eq_refl eq_refl) as H.
  cbv zeta in H. destruct H as (_ & _ & _ & Hred & Htok & _).
  split; [exact Htok | exact Hred].
Defined.

Lemma handleApiError_messages_witness :
  message not_found <> "Network Error" /\
  handleApiError (AxiosErr not_found) = "Resource not found.".
Proof.
  assert (Hm : message not_found <> "Network Error") by discriminate.
  split; [exact Hm|].
  exact (proj1 handleApiError_messages not_found
           {| status := 404; data := None |} Hm eq_refl eq_refl).
Defined.

End Client.

(** ** The create-order form of the dashboard *)
Section DraftOrder.
Import Orders.

Lemma findIndex_absent id l :
  ~ In id (productIds l) ->
  Js.findIndex (fun item => productId item =? id) l = None.
Proof.
  induction l as [|x l IH]; simpl; intros Hn; [reflexivity|].
  destruct (Z.eqb_spec (productId x) id) as [E|E]; [tauto|].
  rewrite IH by tauto. reflexivity.
Qed.

Lemma findIndex_none id l :
  Js.findIndex (fun item => productId item =? id) l = None ->
  ~ In id (productIds l).
Proof.
  induction l as [|x l IH]; simpl; intros Hf; [tauto|].
  destruct (Z.eqb_spec (productId x) id) as [E|E]; [discriminate|].
  destruct (Js.findIndex _ l); [discriminate|].
  intros [H|H]; [contradiction | exact (IH eq_refl H)].
Qed.

Lemma findIndex_at pre entry post :
  ~ In (productId entry) (productIds pre) ->
  Js.findIndex (fun item => productId item =? productId entry) (pre ++ entry :: post)
  = Some (length pre).
Proof.
  induction pre as [|x pre IH]; simpl; intros Hn.
  - rewrite Z.eqb_refl. reflexivity.
  - destruct (Z.eqb_spec (productId x) (productId entry)) as [E|E]; [tauto|].
    rewrite IH by tauto. reflexivity.
Qed.

Lemma alter_at (g : DraftItem -> DraftItem) pre entry post :
  alter g (length pre) (pre ++ entry :: post) = pre ++ g entry :: post.
Proof. induction pre as [|x pre IH]; simpl; [reflexivity|]. f_equal. exact IH. Qed.

Lemma productIds_alter (g : DraftItem -> DraftItem) i l :
  (forall item, productId (g item) = productId item) ->
  productIds (alter g i l) = productIds l.
Proof.
  intros Hg. revert i. induction l as [|x l IH]; intros [|i]; simpl; try reflexivity.
  - rewrite Hg. reflexivity.
  - f_equal. apply IH.
Qed.

Lemma draft_split l pre entry post :
  List.NoDup (productIds l) -> l = pre ++ entry :: post ->
  ~ In (productId entry) (productIds pre) /\ ~ In (productId entry) (productIds post).
Proof.
  intros Hnd ->. unfold productIds in *. rewrite List.map_app in Hnd. simpl in Hnd.
  apply List.NoDup_remove_2 in Hnd. rewrite List.in_app_iff in Hnd. tauto.
Qed.

Lemma draft_filter_absent id l :
  ~ In id (productIds l) ->
  List.filter (fun item => negb (productId item =? id)) l = l.
Proof.
  induction l as [|x l IH]; simpl; intros Hn; [reflexivity|].
  destruct (Z.eqb_spec (productId x) id) as [E|E]; [tauto|]. simpl.
  f_equal. apply IH. tauto.
Qed.

Lemma draft_filter_gone id l :
  ~ In id (productIds (List.filter (fun item => negb (productId item =? id)) l)).
Proof.
  unfold productIds. rewrite List.in_map_iff. intros (x & Hx & Hin).
  apply List.filter_In in Hin. destruct Hin as [_ Hne].
  apply Z.eqb_eq in Hx. rewrite Hx in Hne. discriminate.
Qed.

Lemma draft_filter_unique id l :
  List.NoDup (productIds l) ->
  List.NoDup (productIds (List.filter (fun item => negb (productId item =? id)) l)).
Proof.
  induction l as [|x l IH]; simpl; intros Hnd; [constructor|].
  inversion Hnd as [|? ? Hx Hrest]; subst.
  destruct (productId x =? id); simpl; [auto|].
  constructor; [|auto]. intros Hin. apply Hx.
  unfold productIds in *. rewrite List.in_map_iff in *.
  destruct Hin as (y & Hy & Hyin). apply List.filter_In in Hyin.
  exists y. tauto.
Qed.

(** Without a selected product, or with a quantity that is not positive,
    the handler returns at its guard. *)
Lemma handleAdd_guard f :
  selectedProduct f = None \/ selectedProduct f = Some 0 \/ selectedQuantity f <= 0 ->
  handleAddProductToOrder f = f.
Proof.
  intros H. unfold handleAddProductToOrder.
  destruct (selectedProduct f) as [selected|]; [|reflexivity].
  destruct H as [H|[H|H]]; [discriminate| |].
  - injection H as ->. reflexivity.
  - apply Z.leb_le in H. rewrite H, orb_true_r. reflexivity.
Qed.

Lemma handleAdd_unique f :
  List.NoDup (productIds (items (newOrder f))) ->
  List.NoDup (productIds (items (newOrder (handleAddProductToOrder f)))).
Proof.
  intros Hnd. unfold handleAddProductToOrder.
  destruct (selectedProduct f) as [selected|]; [|exact Hnd].
  destruct ((selected =? 0) || (selectedQuantity f <=? 0)); [exact Hnd|].
  cbv zeta. destruct (Js.findIndex _ _) as [i|] eqn:Hf; cbn [newOrder items with_items].
  - rewrite productIds_alter by reflexivity. exact Hnd.
  - apply findIndex_none in Hf. unfold productIds in *. rewrite List.map_app.
    apply List.NoDup_app; [exact Hnd | constructor; [simpl; tauto | constructor] |].
    intros z Hz [<-|[]]. exact (Hf Hz).
Qed.

(** C9.  On a draft whose product ids are pairwise distinct:
    [handleAddProductToOrder] keeps them distinct; when the selected
    product has an entry, that entry's quantity grows by the selected
    quantity and nothing is added, and when it has none an entry with
    the selected quantity is appended.  [handleRemoveProductFromOrder]
    keeps the ids distinct and deletes the whole entry of the given
    product whatever its quantity, where [removeFromCart] of the guest
    page lowers a quantity above 1 by one. *)
Theorem draft_items_distinct (f : Form) :
  List.NoDup (productIds (items (newOrder f))) ->
  List.NoDup (productIds (items (newOrder (handleAddProductToOrder f)))) /\
  (forall selected,
     selectedProduct f = Some selected -> selected <> 0 -> 0 < selectedQuantity f ->
     (forall pre entry post,
        items (newOrder f) = pre ++ entry :: post -> productId entry = selected ->
        items (newOrder (handleAddProductToOrder f))
        = pre ++ {| productId := selected;
                    quantity := quantity entry + selectedQuantity f |} :: post) /\
     (~ In selected (productIds (items (newOrder f))) ->
        items (newOrder (handleAddProductToOrder f))
        = items (newOrder f) ++ [ {| productId := selected;
                                     quantity := selectedQuantity f |} ])) /\
  (forall id,
     List.NoDup (productIds (items (newOrder (handleRemoveProductFromOrder id f)))) /\
     ~ In id (productIds (items (newOrder (handleRemoveProductFromOrder id f)))) /\
     forall pre entry post,
       items (newOrder f) = pre ++ entry :: post -> productId entry = id ->
       items (newOrder (handleRemoveProductFromOrder id f)) = pre ++ post /\
       forall p : Product.t,
         1 < quantity entry ->
         Menu.removeFromCart (Product.id p)
           [ {| Menu.product := p; Menu.quantity := quantity entry |} ]
         = [ {| Menu.product := p; Menu.quantity := quantity entry - 1 |} ]).
Proof.
  intros Hnd. split; [apply handleAdd_unique, Hnd|]. split.
  - intros selected Hsel Hne Hq.
    assert (Hguard : (selected =? 0) || (selectedQuantity f <=? 0) = false).
    { apply orb_false_iff. split; [apply Z.eqb_neq; exact Hne | apply Z.leb_gt; exact Hq]. }
    split.
    + intros pre entry post Hitems Hid.
      destruct (draft_split _ pre entry post Hnd Hitems) as [Hpre _].
      unfold handleAddProductToOrder. rewrite Hsel, Hguard. cbv zeta.
      rewrite Hitems, <- Hid, (findIndex_at pre entry post Hpre).
      cbn [newOrder items with_items]. apply alter_at.
    + intros Habsent. unfold handleAddProductToOrder. rewrite Hsel, Hguard. cbv zeta.
      rewrite (findIndex_absent _ _ Habsent). reflexivity.
  - intros id. cbn [handleRemoveProductFromOrder newOrder items with_items].
    split; [apply draft_filter_unique, Hnd|]. split; [apply draft_filter_gone|].
    intros pre entry post Hitems Hid.
    destruct (draft_split _ pre entry post Hnd Hitems) as [Hpre Hpost]. split.
    + rewrite Hitems, List.filter_app. simpl. rewrite <- Hid, Z.eqb_refl. simpl.
      rewrite (draft_filter_absent _ pre Hpre), (draft_filter_absent _ post Hpost).
      reflexivity.
    + intros p Hq. unfold Menu.removeFromCart. cbn [find Menu.item_id Menu.product].
      rewrite Z.eqb_refl. cbn [Menu.quantity].
      apply Z.ltb_lt in Hq. rewrite Hq. cbn [map Menu.item_id Menu.product].
      rewrite Z.eqb_refl. reflexivity.
Qed.

Lemma draft_items_distinct_witness :
  List.NoDup (productIds (items (newOrder example_form))) /\
  items (newOrder (handleAddProductToOrder example_form))
  = [ {| productId := 1; quantity := 2 |}; {| productId := 2; quantity := 4 |} ].
Proof.
  assert (Hnd : List.NoDup (productIds (items (newOrder example_form)))).
  { repeat (constructor; [simpl; intuition discriminate|]). constructor. }
  split; [exact Hnd|].
  refine (proj1 (proj1 (proj2 (draft_items_distinct example_form Hnd)) 2 eq_refl _ _)
            [ {| productId := 1; quantity := 2 |} ] {| productId := 2; quantity := 1 |} []
            eq_refl eq_refl).
  - discriminate.
  - reflexivity.
Defined.

End DraftOrder.

(** * Further properties of the code *)

(** ** Token service and interceptors *)
Section Tokens.
Import Axios Api HttpClient.

Lemma setToken_run token b :
  has_window b = true ->
  tokenService.setToken token b =
  (Normal tt, {| has_window := true;
                 localStorage := <["auth_token" := token]> (localStorage b);
                 location_href := location_href b;
                 events := events b ++ [SetItem "auth_token" token] |}).
Proof. intros H. unfold tokenService.setToken, modify. rewrite H. reflexivity. Qed.

Lemma removeToken_run b :
  has_window b = true ->
  tokenService.removeToken b =
  (Normal tt, {| has_window := true;
                 localStorage := delete "auth_token" (localStorage b);
                 location_href := location_href b;
                 events := events b ++ [RemoveItem "auth_token"] |}).
Proof. intros H. unfold tokenService.removeToken, modify. rewrite H. reflexivity. Qed.

Lemma getToken_removeToken b :
  tokenService.getToken (snd (tokenService.removeToken b)) = None.
Proof.
  destruct (has_window b) eqn:H.
  - rewrite removeToken_run by exact H. unfold tokenService.getToken. cbn.
    apply lookup_delete_eq.
  - unfold tokenService.removeToken, modify, tokenService.getToken. cbn.
    rewrite H. cbn. rewrite H. reflexivity.
Qed.

Lemma isAuthenticated_no_token b :
  tokenService.getToken b = None -> tokenService.isAuthenticated b = false.
Proof. unfold tokenService.isAuthenticated. intros ->. reflexivity. Qed.

(** X1.  Storing a token and reading it back.  In the browser the token read
    after [setToken] is the token stored, the last one when several were
    stored, and the other keys of the storage keep their values; after
    [removeToken], in the browser or not, no token is read and
    [isAuthenticated] is false. *)
Theorem token_round_trip (b : Browser) (token : string) :
  has_window b = true ->
  let stored := snd (tokenService.setToken token b) in
  tokenService.getToken stored = Some token /\
  tokenService.isAuthenticated stored = Js.truthy token /\
  (forall other, tokenService.getToken (snd (tokenService.setToken other stored)) = Some other) /\
  (forall key, key <> "auth_token" -> localStorage stored !! key = localStorage b !! key) /\
  tokenService.getToken (snd (tokenService.removeToken stored)) = None /\
  tokenService.isAuthenticated (snd (tokenService.removeToken stored)) = false.
Proof.
  intros H stored. subst stored. rewrite setToken_run by exact H.
  cbn [snd]. unfold tokenService.isAuthenticated, tokenService.getToken at 1 2.
  cbn [has_window localStorage]. rewrite lookup_insert_eq.
  split; [reflexivity|]. split; [reflexivity|]. split.
  { intros other. rewrite setToken_run by reflexivity. unfold tokenService.getToken.
    cbn. apply lookup_insert_eq. }
  split.
  { intros key Hk. apply lookup_insert_ne. congruence. }
  split; [apply getToken_removeToken|].
  apply isAuthenticated_no_token, getToken_removeToken.
Qed.

Lemma token_round_trip_witness :
  has_window logged_in = true /\
  tokenService.getToken (snd (tokenService.setToken "fresh" logged_in)) = Some "fresh".
Proof.
  split; [reflexivity|].
  exact (proj1 (token_round_trip logged_in "fresh" eq_refl)).
Defined.

(** X2.  The [Authorization] header.  The request interceptor sets it to
    ["Bearer "] followed by the token exactly when
    [tokenService.isAuthenticated] holds; it leaves every other header,
    the method, the path and the payload as they are, and the whole
    request when there is no token to send. *)
Theorem authorization_header (config : Config) (b : Browser) :
  (tokenService.isAuthenticated b = true ->
     exists token, tokenService.getToken b = Some token /\
       headers (requestInterceptor config b) !! "Authorization"
       = Some ("Bearer " ++ token)%string) /\
  (tokenService.isAuthenticated b = false -> requestInterceptor config b = config) /\
  (forall key, key <> "Authorization" ->
     headers (requestInterceptor config b) !! key = headers config !! key) /\
  method (requestInterceptor config b) = method config /\
  path (requestInterceptor config b) = path config /\
  payload (requestInterceptor config b) = payload config.
Proof.
  unfold requestInterceptor, tokenService.isAuthenticated.
  destruct (tokenService.getToken b) as [token|]; [destruct (Js.truthy token)|].
  - split; [intros _; exists token; split; [reflexivity | apply lookup_insert_eq]|].
    split; [discriminate|]. split; [|auto].
    intros key Hk. apply lookup_insert_ne. congruence.
  - split; [discriminate|]. auto.
  - split; [discriminate|]. auto.
Qed.

Lemma authorization_header_witness :
  tokenService.isAuthenticated logged_in = true /\
  exists token, tokenService.getToken logged_in = Some token /\
    headers (outgoing "GET" "/orders" NoPayload logged_in) !! "Authorization"
    = Some ("Bearer " ++ token)%string.
Proof.
  split; [reflexivity|].
  exact (proj1 (authorization_header
                  {| method := "GET"; path := "/orders";
                     headers := defaultHeaders; payload := NoPayload |} logged_in)
               eq_refl).
Defined.

(** X3.  The rejection handler of the response interceptor never swallows a
    failure: it rejects with the error it was given.  It keeps
    [has_window] and, for an error that is not a 401 response (another
    status, or no response at all), the whole browser as it is. *)
Theorem rejection_passes_through (R : Type) (error : AxiosError) (b : Browser) :
  fst (@onRejected R error b) = Throw (AxiosErr error) /\
  has_window (snd (@onRejected R error b)) = has_window b /\
  (response_status_is error 401 = false -> snd (@onRejected R error b) = b) /\
  snd (@onRejected R error b) = after_failure error b.
Proof.
  unfold after_failure, onRejected.
  destruct (response_status_is error 401); [|repeat split; reflexivity].
  unfold bind, tokenService.removeToken, modify, throw, set_location_href, ret.
  destruct (has_window b) eqn:H; cbn; rewrite ?H; cbn; rewrite ?H;
    repeat split; try reflexivity; try discriminate; auto.
Qed.

Lemma rejection_passes_through_witness :
  response_status_is not_found 401 = false /\
  snd (@onRejected unit not_found logged_in) = logged_in.
Proof.
  split; [reflexivity|].
  exact (proj1 (proj2 (proj2 (rejection_passes_through unit not_found logged_in))) eq_refl).
Defined.

Lemma after_unauthorized_no_token error b :
  response_status_is error 401 = true ->
  tokenService.getToken (after_failure error b) = None.
Proof.
  intros H401. unfold after_failure, onRejected. rewrite H401.
  unfold bind, tokenService.removeToken, modify, throw, set_location_href, ret,
    tokenService.getToken.
  destruct (has_window b) eqn:H; cbn; rewrite ?H; cbn; rewrite ?H; cbn;
    [apply lookup_delete_eq | reflexivity].
Qed.

(** X4.  After a 401 the client is logged out for every later request: the
    token service reports no authentication and the request interceptor
    sends requests without an [Authorization] header, whatever token was
    stored before. *)
Theorem unauthorized_logs_out (error : AxiosError) (b : Browser) (config : Config) :
  response_status_is error 401 = true ->
  tokenService.isAuthenticated (after_failure error b) = false /\
  requestInterceptor config (after_failure error b) = config /\
  headers (outgoing "GET" "/orders" NoPayload (after_failure error b)) !! "Authorization"
  = None.
Proof.
  intros H. pose proof (after_unauthorized_no_token error b H) as Hnone.
  split; [apply isAuthenticated_no_token, Hnone|].
  unfold outgoing, requestInterceptor. rewrite Hnone. split; reflexivity.
Qed.

Lemma unauthorized_logs_out_witness :
  response_status_is unauthorized 401 = true /\
  tokenService.isAuthenticated logged_in = true /\
  tokenService.isAuthenticated (after_failure unauthorized logged_in) = false.
Proof.
  split; [reflexivity|]. split; [reflexivity|].
  exact (proj1 (unauthorized_logs_out unauthorized logged_in
                  {| method := "GET"; path := "/orders";
                     headers := defaultHeaders; payload := NoPayload |} eq_refl)).
Defined.

End Tokens.

(** ** Error messages *)
Section ErrorMessages.
Import Axios Api.

(** X5.  A structured error body wins over the status code.  For an error
    with a response body and a message other than "Network Error": a
    truthy [error] field is returned as it is, whatever the status and
    the [details]; with a falsy [error], a non-empty [details] string is
    returned as it is and a [details] object gives its values joined by
    ", " -- the empty string for an empty object. *)
Theorem structured_error_message (e : AxiosError) (r : Response) (body : ErrorBody) :
  message e <> "Network Error" -> response e = Some r -> data r = Some body ->
  (forall m, error body = Some m -> Js.truthy m = true ->
     handleApiError (AxiosErr e) = m) /\
  (error body = None \/ error body = Some "" ->
     (forall d, details body = Some (DetailsString d) -> Js.truthy d = true ->
        handleApiError (AxiosErr e) = d) /\
     (forall fields, details body = Some (DetailsRecord fields) ->
        handleApiError (AxiosErr e) = Js.join ", " (map snd fields)) /\
     (details body = Some (DetailsRecord []) -> handleApiError (AxiosErr e) = "") /\
     (details body = None \/ details body = Some (DetailsString "") ->
        handleApiError (AxiosErr e) = statusMessage (status r))).
Proof.
  intros Hm Hr Hd. apply String.eqb_neq in Hm.
  unfold handleApiError, structuredMessage. rewrite Hm, Hr, Hd. split.
  - intros m He Ht. rewrite He, Ht. reflexivity.
  - intros He.
    assert (Hfall : match error body with
                    | Some errorMessage => Js.truthy errorMessage
                    | None => false
                    end = false).
    { destruct He as [->| ->]; reflexivity. }
    repeat split.
    + intros d Hdd Ht. destruct (error body) as [m|]; [rewrite Hfall|];
        rewrite Hdd, Ht; reflexivity.
    + intros fields Hf. destruct (error body) as [m|]; [rewrite Hfall|];
        rewrite Hf; reflexivity.
    + intros Hf. destruct (error body) as [m|]; [rewrite Hfall|];
        rewrite Hf; reflexivity.
    + intros [Hn|Hn]; destruct (error body) as [m|]; try rewrite Hfall;
        rewrite Hn; reflexivity.
Qed.

Lemma structured_error_message_witness :
  handleApiError
    (AxiosErr {| message := "Request failed with status code 400";
                 response := Some {| status := 400;
                                     data := Some {| error := Some "Table is occupied";
                                                     details := None |} |};
                 request := true; url := "/orders" |})
  = "Table is occupied".
Proof.
  refine (proj1 (structured_error_message
                   {| message := "Request failed with status code 400";
                      response := Some {| status := 400;
                                          data := Some {| error := Some "Table is occupied";
                                                          details := None |} |};
                      request := true; url := "/orders" |}
                   {| status := 400;
                      data := Some {| error := Some "Table is occupied"; details := None |} |}
                   {| error := Some "Table is occupied"; details := None |}
                   _ eq_refl eq_refl) _ eq_refl eq_refl).
  discriminate.
Defined.

(** X6.  Failures without a usable response.  The message "Network Error"
    gives the connectivity message whatever else the error carries, a
    response with a structured body included.  Without a response, an
    error whose request was sent gives the network message, and any
    other axios error its own message. *)
Theorem transport_error_message :
  (forall resp req u,
     handleApiError (AxiosErr {| message := "Network Error"; response := resp;
                                 request := req; url := u |})
     = "Cannot connect to the server. Please check your connection or try again later.") /\
  (forall e, message e <> "Network Error" -> response e = None ->
     handleApiError (AxiosErr e)
     = if request e then "Network error. Please check your connection." else message e).
Proof.
  split.
  - intros resp req u. reflexivity.
  - intros e Hm Hr. apply String.eqb_neq in Hm. unfold handleApiError.
    rewrite Hm, Hr. reflexivity.
Qed.

Lemma transport_error_message_witness :
  handleApiError (AxiosErr {| message := "timeout of 20000ms exceeded"; response := None;
                              request := true; url := "/orders" |})
  = "Network error. Please check your connection.".
Proof.
  refine (proj2 transport_error_message
            {| message := "timeout of 20000ms exceeded"; response := None;
               request := true; url := "/orders" |} _ eq_refl).
  discriminate.
Defined.

End ErrorMessages.

(** ** Authentication *)
Section Authentication.
Import Axios Api HttpClient.

Lemma onRejected_run (R : Type) e b :
  @onRejected R e b = (Throw (AxiosErr e), after_failure e b).
Proof.
  unfold after_failure, onRejected.
  destruct (response_status_is e 401); [|reflexivity].
  unfold bind, tokenService.removeToken, modify, throw, set_location_href, ret.
  destruct (has_window b) eqn:H; cbn; rewrite ?H; cbn; rewrite ?H; reflexivity.
Qed.

Lemma send_ok {A} (server : Config -> Reply A) m p pl w data :
  server (outgoing m p pl (browser w)) = Ok data ->
  send server m p pl w =
  (Normal data, {| browser := browser w;
                   sent := sent w ++ [outgoing m p pl (browser w)] |}).
Proof. intros H. unfold send. cbv zeta. rewrite H. reflexivity. Qed.

Lemma send_fail {A} (server : Config -> Reply A) m p pl w e :
  server (outgoing m p pl (browser w)) = Fail e ->
  send server m p pl w =
  (Throw (AxiosErr e), {| browser := after_failure e (browser w);
                          sent := sent w ++ [outgoing m p pl (browser w)] |}).
Proof.
  intros H. unfold send. cbv zeta. rewrite H. unfold on_browser.
  cbn [browser sent]. rewrite onRejected_run. reflexivity.
Qed.

Lemma removeToken_normal b : fst (tokenService.removeToken b) = Normal tt.
Proof. reflexivity. Qed.

Lemma on_browser_removeToken w :
  on_browser tokenService.removeToken w =
  (Normal tt, {| browser := snd (tokenService.removeToken (browser w)); sent := sent w |}).
Proof. reflexivity. Qed.

Lemma validateToken_run server w :
  authApi.validateToken server w =
  match server (outgoing "GET" "/auth/validate" NoPayload (browser w)) with
  | Ok _ =>
      (Normal true,
       {| browser := browser w;
          sent := sent w ++ [outgoing "GET" "/auth/validate" NoPayload (browser w)] |})
  | Fail e =>
      (Normal false,
       {| browser := snd (tokenService.removeToken (after_failure e (browser w)));
          sent := sent w ++ [outgoing "GET" "/auth/validate" NoPayload (browser w)] |})
  end.
Proof.
  unfold authApi.validateToken, try_catch_finally, bind.
  destruct (server _) as [d|e] eqn:Hs.
  - rewrite (send_ok _ _ _ _ _ _ Hs). reflexivity.
  - rewrite (send_fail _ _ _ _ _ _ Hs). reflexivity.
Qed.

(** X7.  [validateToken] never throws.  It sends one request, answers whether
    the server accepted it, leaves the browser alone when it did, and has
    removed the token when it did not. *)
Theorem validateToken_total (server : Config -> Reply unit) (w : HttpClient.World) :
  let config := outgoing "GET" "/auth/validate" NoPayload (browser w) in
  let result := authApi.validateToken server w in
  fst result = Normal (accepted (server config)) /\
  sent (snd result) = sent w ++ [config] /\
  (accepted (server config) = true -> browser (snd result) = browser w) /\
  (accepted (server config) = false ->
     tokenService.getToken (browser (snd result)) = None /\
     tokenService.isAuthenticated (browser (snd result)) = false).
Proof.
  cbv zeta. rewrite validateToken_run.
  destruct (server _) as [d|e]; cbn [fst snd accepted browser sent].
  - repeat split; try reflexivity; discriminate.
  - split; [reflexivity|]. split; [reflexivity|]. split; [discriminate|].
    intros _. split; [apply getToken_removeToken|].
    apply isAuthenticated_no_token, getToken_removeToken.
Qed.

Lemma validateToken_total_witness :
  accepted (@Fail unit unauthorized) = false /\
  tokenService.getToken
    (browser (snd (authApi.validateToken (fun _ => Fail unauthorized)
                     {| browser := logged_in; sent := [] |})))
  = None.
Proof.
  split; [reflexivity|].
  exact (proj1 (proj2 (proj2 (proj2
           (validateToken_total (fun _ => Fail unauthorized)
              {| browser := logged_in; sent := [] |}))) eq_refl)).
Defined.

(** The browser once the response interceptor has seen the reply. *)
Lemma authApi_logout_run server w :
  authApi.logout server w =
  (Normal tt,
   {| browser := snd (tokenService.removeToken
                        match server (outgoing "POST" "/auth/logout" NoPayload (browser w)) with
                        | Ok _ => browser w
                        | Fail e => after_failure e (browser w)
                        end);
      sent := sent w ++ [outgoing "POST" "/auth/logout" NoPayload (browser w)] |}).
Proof.
  unfold authApi.logout, try_catch_finally.
  destruct (server (outgoing "POST" "/auth/logout" NoPayload (browser w))) as [d|e] eqn:Hs.
  - rewrite (send_ok _ _ _ _ _ _ Hs). destruct d. reflexivity.
  - rewrite (send_fail _ _ _ _ _ _ Hs). reflexivity.
Qed.

Lemma removeToken_location b :
  location_href (snd (tokenService.removeToken b)) = location_href b /\
  has_window (snd (tokenService.removeToken b)) = has_window b /\
  forall href, redirects href (events (snd (tokenService.removeToken b)))
               = redirects href (events b).
Proof.
  unfold tokenService.removeToken, modify. cbn.
  destruct (has_window b) eqn:H; cbn; rewrite ?H; repeat split; intros.
  unfold redirects. rewrite List.filter_app, List.length_app. cbn. lia.
Qed.

Lemma after_failure_location e b :
  location_href (after_failure e b)
  = (if response_status_is e 401 && has_window b then "/login" else location_href b) /\
  redirects "/login" (events (after_failure e b))
  = (redirects "/login" (events b)
     + if response_status_is e 401 && has_window b then 1 else 0)%nat.
Proof.
  unfold after_failure, onRejected.
  destruct (response_status_is e 401); [|cbn; split; [reflexivity | lia]].
  unfold bind, tokenService.removeToken, modify, throw, set_location_href, ret.
  destruct (has_window b) eqn:H; cbn; rewrite ?H; cbn; rewrite ?H; cbn.
  - split; [reflexivity|]. unfold redirects.
    rewrite !List.filter_app, !List.length_app. cbn. lia.
  - split; [reflexivity | lia].
Qed.

(** X8.  Logging out always works on the client.  Whatever the server
    answers, [logout] of the hook returns normally after one request,
    with no token left, no user, [isLoading] false and one
    [router.push] to the login page.  When the server answers 401 and
    there is a window, the response interceptor has, besides, assigned
    the login page to [window.location.href] once; otherwise the
    location is left as it was. *)
Theorem logout_always (server : Config -> Reply unit) (w : UseAuth.World) :
  let result := UseAuth.logout server w in
  let before := browser (UseAuth.client w) in
  let after := browser (UseAuth.client (snd result)) in
  let unauthorized_in_browser :=
    match server (outgoing "POST" "/auth/logout" NoPayload before) with
    | Fail e => response_status_is e 401 && has_window before
    | Ok _ => false
    end in
  fst result = Normal tt /\
  UseAuth.stored_token (snd result) = None /\
  UseAuth.user (UseAuth.state (snd result)) = None /\
  UseAuth.isAuthenticated (UseAuth.state (snd result)) = false /\
  UseAuth.isLoading (UseAuth.state (snd result)) = false /\
  UseAuth.pushes (snd result) = UseAuth.pushes w ++ ["/login"] /\
  sent (UseAuth.client (snd result))
  = sent (UseAuth.client w) ++ [outgoing "POST" "/auth/logout" NoPayload before] /\
  location_href after
  = (if unauthorized_in_browser then "/login" else location_href before) /\
  redirects "/login" (events after)
  = (redirects "/login" (events before) + if unauthorized_in_browser then 1 else 0)%nat.
Proof.
  cbv zeta.
  pose proof (authApi_logout_run server (UseAuth.client w)) as Hrun.
  eassert (Hres : UseAuth.logout server w = _).
  { unfold UseAuth.logout, try_catch_finally, bind, UseAuth.on_client,
      UseAuth.setIsLoading, UseAuth.setUser, UseAuth.router_push, UseAuth.on_state, modify.
    cbn [UseAuth.client]. rewrite Hrun, on_browser_removeToken.
    cbn -[tokenService.removeToken outgoing after_failure]. reflexivity. }
  rewrite Hres. unfold UseAuth.stored_token.
  cbn -[tokenService.removeToken outgoing tokenService.getToken after_failure redirects].
  split; [reflexivity|]. split; [apply getToken_removeToken|].
  do 5 (split; [reflexivity|]).
  destruct (removeToken_location
              (snd (tokenService.removeToken
                      match server (outgoing "POST" "/auth/logout" NoPayload
                                      (browser (UseAuth.client w))) with
                      | Ok _ => browser (UseAuth.client w)
                      | Fail e => after_failure e (browser (UseAuth.client w))
                      end))) as (Hl2 & _ & Hr2).
  destruct (removeToken_location
              match server (outgoing "POST" "/auth/logout" NoPayload
                              (browser (UseAuth.client w))) with
              | Ok _ => browser (UseAuth.client w)
              | Fail e => after_failure e (browser (UseAuth.client w))
              end) as (Hl1 & _ & Hr1).
  rewrite Hl2, Hl1, Hr2, Hr1.
  destruct (server (outgoing "POST" "/auth/logout" NoPayload (browser (UseAuth.client w))))
    as [d|e].
  - split; [reflexivity | lia].
  - apply after_failure_location.
Qed.

Lemma logout_always_witness :
  location_href
    (browser (UseAuth.client (snd (UseAuth.logout (fun _ => Fail unauthorized) UseAuth.signed_in))))
  = "/login" /\
  redirects "/login"
    (events (browser (UseAuth.client
                        (snd (UseAuth.logout (fun _ => Fail unauthorized) UseAuth.signed_in)))))
  = 1%nat /\
  UseAuth.pushes (snd (UseAuth.logout (fun _ => Fail unauthorized) UseAuth.signed_in)) = ["/login"] /\
  location_href
    (browser (UseAuth.client (snd (UseAuth.logout (fun _ => Ok tt) UseAuth.signed_in))))
  = "/dashboard/orders".
Proof.
  destruct (logout_always (fun _ => Fail unauthorized) UseAuth.signed_in)
    as (_ & _ & _ & _ & _ & Hp & _ & Hl & Hr).
  split; [exact Hl|]. split; [exact Hr|]. split; [exact Hp|].
  exact (proj1 (proj2 (proj2 (proj2 (proj2 (proj2 (proj2 (proj2
           (logout_always (fun _ => Ok tt) UseAuth.signed_in))))))))).
Defined.

Lemma authApi_login_ok server email password w resp :
  server (outgoing "POST" "/auth/login" (Credentials email password) (browser w)) = Ok resp ->
  authApi.login server email password w =
  (Normal resp,
   {| browser := snd (tokenService.setToken (token resp) (browser w));
      sent := sent w ++ [outgoing "POST" "/auth/login" (Credentials email password)
                           (browser w)] |}).
Proof.
  intros Hs. unfold authApi.login, bind. rewrite (send_ok _ _ _ _ _ _ Hs). reflexivity.
Qed.

Lemma authApi_login_fail server email password w e :
  server (outgoing "POST" "/auth/login" (Credentials email password) (browser w)) = Fail e ->
  authApi.login server email password w =
  (Throw (AxiosErr e),
   {| browser := after_failure e (browser w);
      sent := sent w ++ [outgoing "POST" "/auth/login" (Credentials email password)
                           (browser w)] |}).
Proof.
  intros Hs. unfold authApi.login, bind. rewrite (send_fail _ _ _ _ _ _ Hs). reflexivity.
Qed.

(** X9.  A login the server accepts.  [login] of the hook returns [true]
    after one request, with the user of the response, no error and
    [isLoading] false, without navigating; in the browser the token read
    afterwards is the token of the response. *)
Theorem login_accepted (server : Config -> Reply AuthResponse) (email password : string)
    (w : UseAuth.World) (resp : AuthResponse) :
  server (outgoing "POST" "/auth/login" (Credentials email password)
            (browser (UseAuth.client w))) = Ok resp ->
  let result := UseAuth.login server email password w in
  fst result = Normal true /\
  UseAuth.user (UseAuth.state (snd result)) = Some (user resp) /\
  UseAuth.error (UseAuth.state (snd result)) = None /\
  UseAuth.isLoading (UseAuth.state (snd result)) = false /\
  UseAuth.pushes (snd result) = UseAuth.pushes w /\
  length (sent (UseAuth.client (snd result))) = S (length (sent (UseAuth.client w))) /\
  (has_window (browser (UseAuth.client w)) = true ->
     UseAuth.stored_token (snd result) = Some (token resp)).
Proof.
  intros Hs. cbv zeta.
  eassert (Hres : UseAuth.login server email password w = _).
  { unfold UseAuth.login, try_catch_finally, bind, UseAuth.on_client,
      UseAuth.setIsLoading, UseAuth.setError, UseAuth.setUser, UseAuth.on_state, modify.
    cbn [UseAuth.client]. rewrite (authApi_login_ok _ _ _ _ _ Hs).
    unfold on_browser. cbn -[outgoing]. reflexivity. }
  rewrite Hres. unfold UseAuth.stored_token.
  cbn -[outgoing tokenService.getToken].
  repeat split; try reflexivity.
  - rewrite List.length_app. simpl. lia.
  - intros Hw. unfold tokenService.getToken. repeat (rewrite Hw; cbn).
    apply lookup_insert_eq.
Qed.

Lemma after_unauthorized_location error b :
  response_status_is error 401 = true -> has_window b = true ->
  location_href (after_failure error b) = "/login".
Proof.
  intros H401 Hw. unfold after_failure, onRejected. rewrite H401.
  unfold bind, tokenService.removeToken, modify, throw, set_location_href, ret.
  cbn. rewrite Hw. cbn. reflexivity.
Qed.

Lemma after_other_failure error b :
  response_status_is error 401 = false -> after_failure error b = b.
Proof. intros H. unfold after_failure, onRejected. rewrite H. reflexivity. Qed.

(** X10.  A login the server refuses.  [login] of the hook returns [false]
    with the message of [handleApiError] as error, the user as before
    and [isLoading] false.  No token is stored; a refusal other than a
    401 leaves the browser as it was, and a 401 (wrong credentials
    included) runs the response interceptor: no token is left and, in
    the browser, the location is set to the login page. *)
Theorem login_refused (server : Config -> Reply AuthResponse) (email password : string)
    (w : UseAuth.World) (e : AxiosError) :
  server (outgoing "POST" "/auth/login" (Credentials email password)
            (browser (UseAuth.client w))) = Fail e ->
  let result := UseAuth.login server email password w in
  fst result = Normal false /\
  UseAuth.error (UseAuth.state (snd result)) = Some (handleApiError (AxiosErr e)) /\
  UseAuth.user (UseAuth.state (snd result)) = UseAuth.user (UseAuth.state w) /\
  UseAuth.isLoading (UseAuth.state (snd result)) = false /\
  UseAuth.pushes (snd result) = UseAuth.pushes w /\
  (response_status_is e 401 = false ->
     browser (UseAuth.client (snd result)) = browser (UseAuth.client w)) /\
  (response_status_is e 401 = true ->
     UseAuth.stored_token (snd result) = None /\
     (has_window (browser (UseAuth.client w)) = true ->
        location_href (browser (UseAuth.client (snd result))) = "/login")).
Proof.
  intros Hs. cbv zeta.
  eassert (Hres : UseAuth.login server email password w = _).
  { unfold UseAuth.login, try_catch_finally, bind, UseAuth.on_client,
      UseAuth.setIsLoading, UseAuth.setError, UseAuth.setUser, UseAuth.on_state, modify.
    cbn [UseAuth.client]. rewrite (authApi_login_fail _ _ _ _ _ Hs).
    cbn -[after_failure outgoing handleApiError]. reflexivity. }
  rewrite Hres. unfold UseAuth.stored_token.
  cbn -[after_failure outgoing handleApiError tokenService.getToken].
  repeat split; try reflexivity.
  - intros H. apply after_other_failure, H.
  - apply after_unauthorized_no_token. assumption.
  - intros Hw. apply after_unauthorized_location; assumption.
Qed.

(** X11.  The session check run when the hook mounts.  It never throws and
    always ends with [isLoading] false, without navigating.  Without a
    token it sends nothing and changes nothing else.  With a token: when
    the validation fails, or succeeds and fetching the user fails, the
    user stays as it was and no token is left; when both succeed the
    user is the one fetched and the browser is untouched. *)
Theorem session_check (validateServer : Config -> Reply unit)
    (meServer : Config -> Reply User) (w : UseAuth.World) :
  let b := browser (UseAuth.client w) in
  let validation := outgoing "GET" "/auth/validate" NoPayload b in
  let me := outgoing "GET" "/auth/me" NoPayload b in
  let result := UseAuth.checkAuth validateServer meServer w in
  fst result = Normal tt /\
  UseAuth.isLoading (UseAuth.state (snd result)) = false /\
  UseAuth.pushes (snd result) = UseAuth.pushes w /\
  (tokenService.isAuthenticated b = false ->
     UseAuth.client (snd result) = UseAuth.client w /\
     UseAuth.user (UseAuth.state (snd result)) = UseAuth.user (UseAuth.state w)) /\
  (tokenService.isAuthenticated b = true ->
     (forall e, validateServer validation = Fail e ->
        UseAuth.user (UseAuth.state (snd result)) = UseAuth.user (UseAuth.state w) /\
        UseAuth.stored_token (snd result) = None /\
        sent (UseAuth.client (snd result)) = sent (UseAuth.client w) ++ [validation]) /\
     (forall d e, validateServer validation = Ok d -> meServer me = Fail e ->
        UseAuth.user (UseAuth.state (snd result)) = UseAuth.user (UseAuth.state w) /\
        UseAuth.stored_token (snd result) = None /\
        sent (UseAuth.client (snd result)) = sent (UseAuth.client w) ++ [validation; me]) /\
     (forall d u, validateServer validation = Ok d -> meServer me = Ok u ->
        UseAuth.user (UseAuth.state (snd result)) = Some u /\
        browser (UseAuth.client (snd result)) = b /\
        sent (UseAuth.client (snd result)) = sent (UseAuth.client w) ++ [validation; me])).
Proof.
  cbv zeta.
  destruct (tokenService.isAuthenticated (browser (UseAuth.client w))) eqn:Hauth.
  - destruct (validateServer (outgoing "GET" "/auth/validate" NoPayload
                                (browser (UseAuth.client w)))) as [d|e] eqn:Hv;
      [destruct (meServer (outgoing "GET" "/auth/me" NoPayload
                             (browser (UseAuth.client w)))) as [u|e] eqn:Hme|].
    + eassert (Hres : UseAuth.checkAuth validateServer meServer w = _).
      { unfold UseAuth.checkAuth, bind at 1. cbv beta. rewrite Hauth.
        unfold try_catch_finally, bind, UseAuth.on_client.
        rewrite validateToken_run, Hv. unfold authApi.getCurrentUser.
        cbn [UseAuth.client browser].
        erewrite send_ok by (cbn [browser]; exact Hme).
        cbn -[outgoing]. reflexivity. }
      rewrite Hres. cbn -[outgoing].
      repeat split; try reflexivity; try discriminate; intros;
        try discriminate.
      * congruence.
      * rewrite <- app_assoc. reflexivity.
    + eassert (Hres : UseAuth.checkAuth validateServer meServer w = _).
      { unfold UseAuth.checkAuth, bind at 1. cbv beta. rewrite Hauth.
        unfold try_catch_finally, bind, UseAuth.on_client.
        rewrite validateToken_run, Hv. unfold authApi.getCurrentUser.
        cbn [UseAuth.client browser].
        erewrite send_fail by (cbn [browser]; exact Hme).
        cbn -[outgoing after_failure tokenService.removeToken]. reflexivity. }
      rewrite Hres. unfold UseAuth.stored_token.
      cbn -[outgoing after_failure tokenService.removeToken tokenService.getToken].
      repeat split; try reflexivity; try discriminate; intros;
        try discriminate.
      * apply getToken_removeToken.
      * rewrite <- app_assoc. reflexivity.
    + eassert (Hres : UseAuth.checkAuth validateServer meServer w = _).
      { unfold UseAuth.checkAuth, bind at 1. cbv beta. rewrite Hauth.
        unfold try_catch_finally, bind, UseAuth.on_client.
        rewrite validateToken_run, Hv.
        cbn -[outgoing after_failure tokenService.removeToken]. reflexivity. }
      rewrite Hres. unfold UseAuth.stored_token.
      cbn -[outgoing after_failure tokenService.removeToken tokenService.getToken].
      repeat split; try reflexivity; try discriminate; intros;
        try discriminate.
      apply getToken_removeToken.
  - eassert (Hres : UseAuth.checkAuth validateServer meServer w = _).
    { unfold UseAuth.checkAuth, bind at 1. cbv beta. rewrite Hauth.
      cbn. reflexivity. }
    rewrite Hres. cbn. repeat split; try reflexivity; try discriminate.
Qed.

Lemma session_check_witness :
  tokenService.isAuthenticated logged_in = true /\
  UseAuth.stored_token
    (snd (UseAuth.checkAuth (fun _ => Fail unauthorized) (fun _ => Fail unauthorized)
            {| UseAuth.client := {| browser := logged_in; sent := [] |};
               UseAuth.state := {| UseAuth.user := None; UseAuth.isLoading := true;
                                   UseAuth.error := None |};
               UseAuth.pushes := [] |}))
  = None.
Proof.
  split; [reflexivity|].
  refine (proj1 (proj2 (proj1 (proj2 (proj2 (proj2 (proj2
            (session_check (fun _ => Fail unauthorized) (fun _ => Fail unauthorized)
               {| UseAuth.client := {| browser := logged_in; sent := [] |};
                  UseAuth.state := {| UseAuth.user := None; UseAuth.isLoading := true;
                                      UseAuth.error := None |};
                  UseAuth.pushes := [] |})))) eq_refl) unauthorized eq_refl))).
Defined.

Lemma login_accepted_witness :
  UseAuth.stored_token
    (snd (UseAuth.login
            (fun _ => Ok {| token := "t0k3n";
                            user := {| user_id := 1; user_name := "Ada"; user_email := "ada@cafe";
                                       user_role := "admin"; user_status := "active";
                                       user_joinedAt := "" |} |})
            "ada@cafe" "pw"
            {| UseAuth.client := {| browser := logged_in; sent := [] |};
               UseAuth.state := {| UseAuth.user := None; UseAuth.isLoading := false;
                                   UseAuth.error := None |};
               UseAuth.pushes := [] |}))
  = Some "t0k3n".
Proof.
  refine (proj2 (proj2 (proj2 (proj2 (proj2 (proj2
            (login_accepted _ "ada@cafe" "pw"
               {| UseAuth.client := {| browser := logged_in; sent := [] |};
                  UseAuth.state := {| UseAuth.user := None; UseAuth.isLoading := false;
                                      UseAuth.error := None |};
                  UseAuth.pushes := [] |} _ eq_refl)))))) eq_refl).
Defined.

Lemma login_refused_witness :
  response_status_is unauthorized 401 = true /\
  UseAuth.stored_token
    (snd (UseAuth.login (fun _ => Fail unauthorized) "ada@cafe" "wrong"
            {| UseAuth.client := {| browser := logged_in; sent := [] |};
               UseAuth.state := {| UseAuth.user := None; UseAuth.isLoading := false;
                                   UseAuth.error := None |};
               UseAuth.pushes := [] |}))
  = None.
Proof.
  split; [reflexivity|].
  refine (proj1 (proj2 (proj2 (proj2 (proj2 (proj2 (proj2
            (login_refused (fun _ => Fail unauthorized) "ada@cafe" "wrong"
               {| UseAuth.client := {| browser := logged_in; sent := [] |};
                  UseAuth.state := {| UseAuth.user := None; UseAuth.isLoading := false;
                                      UseAuth.error := None |};
                  UseAuth.pushes := [] |} unauthorized eq_refl)))))) eq_refl)).
Defined.

End Authentication.

(** ** The route guard *)
Section Guard.
Import Api AuthGuard.

Lemma app_one_neq {A} (l : list A) x : l <> l ++ [x].
Proof.
  intros H. apply (f_equal (@length A)) in H. rewrite List.length_app in H. simpl in H. lia.
Qed.

(** X12.  The guard decides on one navigation at most.  It never throws, ends
    with [isChecking] false and leaves the browser alone.  It sends to the
    login page exactly the visitors without a token on a route that is
    not public, and to the dashboard exactly the visitors with a token on
    the login page. *)
Theorem route_guard (pathname : string) (w : AuthGuard.World) :
  let result := checkAuth pathname w in
  let authenticated := tokenService.isAuthenticated (browser w) in
  fst result = Normal tt /\
  isChecking (snd result) = false /\
  browser (snd result) = browser w /\
  (pushes (snd result) = pushes w \/
   pushes (snd result) = pushes w ++ ["/login"] \/
   pushes (snd result) = pushes w ++ ["/dashboard"]) /\
  (pushes (snd result) = pushes w ++ ["/login"] <->
   isPublicRoute pathname = false /\ authenticated = false) /\
  (pushes (snd result) = pushes w ++ ["/dashboard"] <->
   pathname = "/login" /\ authenticated = true).
Proof.
  cbv zeta. unfold checkAuth, bind. cbv beta.
  destruct (isPublicRoute pathname) eqn:Hpub;
    destruct (tokenService.isAuthenticated (browser w)) eqn:Hauth;
    destruct (String.eqb_spec pathname "/login") as [Hl|Hl];
    cbn [negb andb]; cbn;
    repeat split; intros; try reflexivity; try discriminate; auto;
    try (exfalso; match goal with
                  | H : ?l = ?l ++ _ |- _ => exact (app_one_neq _ _ H)
                  end);
    try (match goal with
         | H : _ ++ _ = _ ++ _ |- _ => apply List.app_inv_head in H; discriminate
         end);
    try (match goal with H : _ /\ _ |- _ => destruct H; congruence end).
Qed.

(** X13.  After the response interceptor has handled a 401, the guard sends
    the visitor of any route that is not public to the login page. *)
Theorem guard_after_unauthorized (error : Axios.AxiosError) (pathname : string)
    (w : AuthGuard.World) :
  response_status_is error 401 = true -> isPublicRoute pathname = false ->
  pushes (snd (checkAuth pathname
                 {| browser := HttpClient.after_failure error (browser w);
                    isChecking := isChecking w; pushes := pushes w |}))
  = pushes w ++ ["/login"].
Proof.
  intros H401 Hpub. unfold checkAuth, bind. cbn [browser]. rewrite Hpub.
  rewrite (isAuthenticated_no_token _ (after_unauthorized_no_token error (browser w) H401)).
  reflexivity.
Qed.

Lemma guard_after_unauthorized_witness :
  pushes (snd (checkAuth "/dashboard/orders"
                 {| browser := HttpClient.after_failure unauthorized logged_in;
                    isChecking := true; pushes := [] |}))
  = ["/login"].
Proof.
  exact (guard_after_unauthorized unauthorized "/dashboard/orders"
           {| browser := logged_in; isChecking := true; pushes := [] |} eq_refl eq_refl).
Defined.

Lemma route_guard_witness :
  pushes (snd (checkAuth "/login" {| browser := logged_in; isChecking := true; pushes := [] |}))
  = ["/dashboard"].
Proof.
  exact (proj2 (proj2 (proj2 (proj2 (proj2 (proj2
           (route_guard "/login"
              {| browser := logged_in; isChecking := true; pushes := [] |}))))))
           (conj eq_refl eq_refl)).
Defined.

End Guard.

(** ** The call-state hook *)
Section CallState.
Import UseApi.

Lemma executeApiCall_returns {W A : Type} (on : (Hook -> Hook) -> W -> W)
    (apiCall : M W (option A)) w v w1 :
  apiCall (on (setError None) (on (setIsLoading true) w)) = (Normal v, w1) ->
  executeApiCall on apiCall w = (Normal v, on (setIsLoading false) w1).
Proof.
  intros H. unfold executeApiCall. rewrite !bind_modify.
  unfold try_catch_finally, bind. rewrite H. reflexivity.
Qed.

Lemma executeApiCall_throws {W A : Type} (on : (Hook -> Hook) -> W -> W)
    (apiCall : M W (option A)) w e w1 :
  apiCall (on (setError None) (on (setIsLoading true) w)) = (Throw e, w1) ->
  executeApiCall on apiCall w =
  (Normal None, on (setIsLoading false) (on (setError (Some (Api.handleApiError e))) w1)).
Proof.
  intros H. unfold executeApiCall. rewrite !bind_modify.
  unfold try_catch_finally, bind. rewrite H. reflexivity.
Qed.

(** X14.  [executeApiCall] never throws.  In any world that holds the hook,
    the call runs with [isLoading] true and the previous error cleared;
    afterwards [isLoading] is false.  A call that throws gives [null]
    and stores the message of [handleApiError] as the error; a call that
    returns gives its value and stores no error of its own. *)
Theorem executeApiCall_total {W A : Type} (get : W -> Hook)
    (on : (Hook -> Hook) -> W -> W) (apiCall : M W (option A)) (w : W) :
  (forall f w', get (on f w') = f (get w')) ->
  let started := on (setError None) (on (setIsLoading true) w) in
  let result := executeApiCall on apiCall w in
  get started = {| isLoading := true; error := None |} /\
  (exists v, fst result = Normal v) /\
  isLoading (get (snd result)) = false /\
  (forall e w1, apiCall started = (Throw e, w1) ->
     fst result = Normal None /\
     error (get (snd result)) = Some (Api.handleApiError e)) /\
  (forall v w1, apiCall started = (Normal v, w1) ->
     fst result = Normal v /\
     error (get (snd result)) = error (get w1)).
Proof.
  intros Hlens. cbv zeta. split; [rewrite !Hlens; reflexivity|].
  destruct (apiCall (on (setError None) (on (setIsLoading true) w))) as [[v|e] w1] eqn:Hcall.
  - rewrite (executeApiCall_returns on apiCall w v w1 Hcall). cbn [fst snd].
    rewrite !Hlens. split; [eexists; reflexivity|]. split; [reflexivity|].
    split; intros ? ? H; [discriminate|]. injection H as <- <-. split; reflexivity.
  - rewrite (executeApiCall_throws on apiCall w e w1 Hcall). cbn [fst snd].
    rewrite !Hlens. split; [eexists; reflexivity|]. split; [reflexivity|].
    split; intros ? ? H; [|discriminate]. injection H as <- <-. split; reflexivity.
Qed.

Lemma executeApiCall_total_witness :
  fst (executeApiCall Menu.on_hook
         (Menu.orders_create (fun _ => Rejected Menu.server_down)
            (Menu.order_request "5" Menu.guest_state))
         (Menu.at_render Menu.guest_state))
  = Normal None.
Proof.
  refine (proj1 (proj1 (proj2 (proj2 (proj2
            (executeApiCall_total Menu.hook Menu.on_hook
               (Menu.orders_create (fun _ => Rejected Menu.server_down)
                  (Menu.order_request "5" Menu.guest_state))
               (Menu.at_render Menu.guest_state) (fun _ _ => eq_refl)))))
            Menu.server_down _ eq_refl)).
Defined.

End CallState.

(** ** More on the guest cart *)
Section CartInvariant.
Import Menu.

Lemma unique_line cart x y :
  List.NoDup (ids cart) -> In x cart -> In y cart -> item_id x = item_id y -> x = y.
Proof.
  induction cart as [|z cart IH]; simpl; intros Hnd Hx Hy Hid; [tauto|].
  inversion Hnd as [|? ? Hz Hrest]; subst.
  destruct Hx as [<-|Hx], Hy as [<-|Hy]; auto.
  - exfalso. apply Hz. rewrite Hid. apply List.in_map. exact Hy.
  - exfalso. apply Hz. rewrite <- Hid. apply List.in_map. exact Hx.
Qed.

Lemma addToCart_positive p cart :
  List.Forall (fun item => 1 <= quantity item) cart ->
  List.Forall (fun item => 1 <= quantity item) (addToCart p cart).
Proof.
  intros Hpos. unfold addToCart. destruct (find _ cart).
  - induction Hpos as [|x l Hx _ IH]; simpl; constructor; [|exact IH].
    cbv beta in Hx. destruct (item_id x =? Product.id p); simpl; lia.
  - apply List.Forall_app. split; [exact Hpos|]. constructor; [simpl; lia | constructor].
Qed.

Lemma filter_positive (f : CartItem -> bool) cart :
  List.Forall (fun item => 1 <= quantity item) cart ->
  List.Forall (fun item => 1 <= quantity item) (List.filter f cart).
Proof.
  intros Hpos. induction Hpos as [|x l Hx _ IH]; simpl; [constructor|].
  destruct (f x); [constructor; assumption | exact IH].
Qed.

Lemma removeFromCart_positive pid cart :
  List.NoDup (ids cart) ->
  List.Forall (fun item => 1 <= quantity item) cart ->
  List.Forall (fun item => 1 <= quantity item) (removeFromCart pid cart).
Proof.
  intros Hnd Hpos. unfold removeFromCart.
  destruct (find _ cart) as [l|] eqn:Hf; [|apply filter_positive, Hpos].
  destruct (1 <? quantity l) eqn:Hq; [|apply filter_positive, Hpos].
  apply Z.ltb_lt in Hq. destruct (find_some_id _ _ _ Hf) as [Hid Hin].
  rewrite List.Forall_forall in *. intros y Hy.
  apply List.in_map_iff in Hy. destruct Hy as (x & <- & Hx).
  destruct (Z.eqb_spec (item_id x) pid) as [E|E]; [|apply Hpos, Hx].
  assert (x = l) by (apply (unique_line cart); auto; congruence).
  subst x. pose proof (Hpos l Hin) as Hl. simpl in *. lia.
Qed.

Lemma positive_sum cart :
  List.Forall (fun item => 1 <= quantity item) cart ->
  Z.of_nat (length cart) <= sum_of_quantities cart.
Proof.
  intros Hpos. induction Hpos as [|x l Hx _ IH]; [simpl; lia|].
  cbn [length sum_of_quantities]. cbv beta in Hx. lia.
Qed.

Lemma getTotalItems_sum cart : getTotalItems cart = sum_of_quantities cart.
Proof. unfold getTotalItems. rewrite getTotalItems_from. lia. Qed.

(** X15.  What every cart of the page satisfies.  A cart reached from the
    empty cart by [addToCart] and [removeFromCart] has one line per
    product id and no line with a quantity below 1; so its number of
    items is at least its number of lines, and is 0 only for the empty
    cart (the badge on the cart button and the empty-cart message
    agree). *)
Theorem cart_invariant (cart : list CartItem) :
  reachable cart ->
  List.NoDup (ids cart) /\
  List.Forall (fun item => 1 <= quantity item) cart /\
  Z.of_nat (length cart) <= getTotalItems cart /\
  (getTotalItems cart = 0 <-> cart = []).
Proof.
  intros Hreach.
  assert (Hinv : List.NoDup (ids cart) /\ List.Forall (fun item => 1 <= quantity item) cart).
  { induction Hreach as [|p cart _ [Hnd Hpos]|pid cart _ [Hnd Hpos]].
    - split; constructor.
    - split; [apply addToCart_unique, Hnd | apply addToCart_positive, Hpos].
    - split; [apply removeFromCart_unique, Hnd | apply removeFromCart_positive; assumption]. }
  destruct Hinv as [Hnd Hpos]. split; [exact Hnd|]. split; [exact Hpos|].
  pose proof (positive_sum cart Hpos) as Hlen. rewrite getTotalItems_sum.
  split; [exact Hlen|]. split.
  - intros H0. destruct cart; [reflexivity|].
    cbn [length sum_of_quantities] in Hlen, H0. lia.
  - intros ->. reflexivity.
Qed.

Lemma cart_invariant_witness :
  reachable (addToCart productB (addToCart productA (addToCart productA []))) /\
  List.NoDup (ids (addToCart productB (addToCart productA (addToCart productA [])))).
Proof.
  assert (H : reachable (addToCart productB (addToCart productA (addToCart productA [])))).
  { repeat apply reach_add. apply reach_initial. }
  split; [exact H|]. exact (proj1 (cart_invariant _ H)).
Defined.

Lemma find_map_line pid (f : CartItem -> CartItem) cart :
  (forall item, item_id (f item) = item_id item) ->
  find (fun item => item_id item =? pid)
       (map (fun item => if item_id item =? pid then f item else item) cart)
  = option_map f (find (fun item => item_id item =? pid) cart).
Proof.
  intros Hf. induction cart as [|x cart IH]; simpl; [reflexivity|].
  destruct (item_id x =? pid) eqn:E.
  - rewrite Hf, E. reflexivity.
  - rewrite E. exact IH.
Qed.

(** X16.  Adding a product and removing it again gives back the cart.  For
    every cart without a quantity below 1, [removeFromCart (id p)] after
    [addToCart p] is the cart as it was: the same lines, in the same
    order, with the same quantities. *)
Theorem add_then_remove (p : Product.t) (cart : list CartItem) :
  List.Forall (fun item => 1 <= quantity item) cart ->
  removeFromCart (Product.id p) (addToCart p cart) = cart.
Proof.
  intros Hpos. unfold addToCart.
  destruct (find (fun item => item_id item =? Product.id p) cart) as [l|] eqn:Hf.
  - unfold removeFromCart.
    rewrite (find_map_line _ (fun item => with_quantity item (quantity item + 1)))
      by reflexivity.
    rewrite Hf. cbn [option_map with_quantity quantity].
    destruct (find_some_id _ _ _ Hf) as [_ Hin].
    rewrite List.Forall_forall in Hpos. pose proof (Hpos l Hin) as Hl. cbv beta in Hl.
    assert (Hq : (1 <? quantity l + 1) = true) by (apply Z.ltb_lt; lia).
    rewrite Hq. rewrite List.map_map.
    rewrite <- (List.map_id cart) at 2. apply List.map_ext.
    intros [prod q]. unfold item_id. cbn.
    destruct (Product.id prod =? Product.id p) eqn:E; cbn; rewrite ?E; cbn; [|reflexivity].
    unfold with_quantity. cbn. f_equal. lia.
  - pose (l := {| product := p; quantity := 1 |}).
    assert (Hn : ~ In (item_id l) (ids cart)).
    { intros Hin. destruct (find_present _ _ Hin) as (x & Hx & _).
      unfold l, item_id in Hx. cbn in Hx. unfold item_id in Hf. congruence. }
    change (removeFromCart (item_id l) (cart ++ [l]) = cart).
    unfold removeFromCart. rewrite (find_at_line cart l [] Hn). cbn [quantity l].
    cbn [Z.ltb Z.compare Pos.compare Pos.compare_cont].
    rewrite (filter_at_line cart l []); [apply app_nil_r | exact Hn | simpl; tauto].
Qed.

Lemma add_then_remove_witness :
  removeFromCart (Product.id productB) (addToCart productB example_cart) = example_cart.
Proof.
  apply add_then_remove. repeat constructor; simpl; lia.
Defined.

End CartInvariant.

(** ** Totals of a changing cart *)
Section CartTotals.
Import Menu.

Lemma sum_of_quantities_app c1 c2 :
  sum_of_quantities (c1 ++ c2) = sum_of_quantities c1 + sum_of_quantities c2.
Proof. induction c1 as [|x c1 IH]; simpl; [reflexivity|]. rewrite IH. lia. Qed.

Lemma line_split pid cart l :
  List.NoDup (ids cart) ->
  find (fun item => item_id item =? pid) cart = Some l ->
  item_id l = pid /\
  exists pre post, cart = pre ++ l :: post /\
    ~ In (item_id l) (ids pre) /\ ~ In (item_id l) (ids post).
Proof.
  intros Hnd Hf. destruct (find_some_id _ _ _ Hf) as [Hid Hin]. split; [exact Hid|].
  destruct (List.in_split _ _ Hin) as (pre & post & Hcart).
  exists pre, post. split; [exact Hcart|]. exact (unique_split _ pre l post Hnd Hcart).
Qed.

(** X17.  How the totals follow the cart.  On a cart with one line per
    product id, [addToCart] raises the number of items by 1; when it
    appends a line the price becomes the old price plus, in binary64,
    the price of the product times 1; when it raises a line the price is
    that of the cart with the quantity of that line raised -- at the
    price the line was created with, not the price of the product
    passed.  [removeFromCart] on a line with a quantity of at least 1
    lowers the items by 1, and changes nothing when the product has no
    line.  The price is computed anew from the lines and need not be the
    old price plus the price of the line: with products at 0.10, 0.20
    and 0.30, one of each, adding the first gives 0.7 while the old
    total plus 0.10 is 0.7000000000000001. *)
Theorem totals_follow_cart (p : Product.t) (cart : list CartItem) :
  List.NoDup (ids cart) ->
  getTotalItems (addToCart p cart) = getTotalItems cart + 1 /\
  (forall l, find (fun item => item_id item =? Product.id p) cart = Some l ->
     exists pre post,
       cart = pre ++ l :: post /\
       getTotalPrice (addToCart p cart)
       = getTotalPrice (pre ++ {| product := product l;
                                  quantity := quantity l + 1 |} :: post)) /\
  (find (fun item => item_id item =? Product.id p) cart = None ->
     getTotalPrice (addToCart p cart)
     = (getTotalPrice cart + Product.price p * Js.number 1)%float) /\
  (forall l, find (fun item => item_id item =? Product.id p) cart = Some l ->
     1 <= quantity l ->
     getTotalItems (removeFromCart (Product.id p) cart) = getTotalItems cart - 1) /\
  (find (fun item => item_id item =? Product.id p) cart = None ->
     removeFromCart (Product.id p) cart = cart) /\
  (getTotalPrice (addToCart (priced 1 0x1.999999999999ap-4%float) small_change_cart)
   = 0x1.6666666666666p-1%float /\
   (getTotalPrice small_change_cart + 0x1.999999999999ap-4)%float
   = 0x1.6666666666667p-1%float).
Proof.
  intros Hnd. rewrite !getTotalItems_sum.
  assert (Hadd_present : forall l,
            find (fun item => item_id item =? Product.id p) cart = Some l ->
            exists pre post, cart = pre ++ l :: post /\
              addToCart p cart = pre ++ with_quantity l (quantity l + 1) :: post /\
              ~ In (item_id l) (ids pre) /\ ~ In (item_id l) (ids post)).
  { intros l Hf. destruct (line_split _ _ _ Hnd Hf) as (Hid & pre & post & Hc & Hpre & Hpost).
    exists pre, post. split; [exact Hc|]. split; [|split; assumption].
    rewrite Hc. apply addToCart_present_at; congruence. }
  assert (Hadd_absent :
            find (fun item => item_id item =? Product.id p) cart = None ->
            addToCart p cart = cart ++ [ {| product := p; quantity := 1 |} ]).
  { intros Hf. unfold addToCart. rewrite Hf. reflexivity. }
  split; [|split; [|split; [|split; [|split]]]].
  - destruct (find (fun item => item_id item =? Product.id p) cart) as [l|] eqn:Hf.
    + destruct (Hadd_present l eq_refl) as (pre & post & Hc & Ha & _).
      rewrite Ha, Hc, !sum_of_quantities_app. simpl. lia.
    + rewrite (Hadd_absent eq_refl), sum_of_quantities_app. simpl. lia.
  - intros l Hf. destruct (Hadd_present l Hf) as (pre & post & Hc & Ha & _).
    exists pre, post. split; [exact Hc|]. rewrite Ha. reflexivity.
  - intros Hf. rewrite (Hadd_absent Hf). apply getTotalPrice_app.
  - intros l Hf Hq.
    destruct (line_split _ _ _ Hnd Hf) as (Hid & pre & post & Hc & Hpre & Hpost).
    unfold removeFromCart. rewrite Hf.
    destruct (1 <? quantity l) eqn:Hlt.
    + rewrite Hc, <- Hid.
      rewrite (map_at_line (fun item => with_quantity item (quantity item - 1)) pre l post
                 Hpre Hpost).
      rewrite !sum_of_quantities_app.
      cbn [sum_of_quantities with_quantity product quantity]. lia.
    + apply Z.ltb_ge in Hlt. assert (Hone : quantity l = 1) by lia.
      rewrite Hc, <- Hid. rewrite (filter_at_line pre l post Hpre Hpost).
      rewrite !sum_of_quantities_app.
      cbn [sum_of_quantities product quantity]. lia.
  - intros Hf. unfold removeFromCart. rewrite Hf. apply filter_absent.
    intros Hin. destruct (find_present _ _ Hin) as (x & Hx & _). congruence.
  - split; reflexivity.
Qed.

Lemma totals_follow_cart_witness :
  List.NoDup (ids example_cart) /\
  getTotalItems (addToCart productA example_cart) = 4 /\
  getTotalItems (removeFromCart (Product.id productA) example_cart) = 2 /\
  getTotalPrice (addToCart (priced 3 1.25%float) example_cart) = 13.25%float.
Proof.
  assert (Hnd : List.NoDup (ids example_cart)).
  { repeat (constructor; [simpl; intuition discriminate|]). constructor. }
  split; [exact Hnd|]. split; [|split].
  - exact (proj1 (totals_follow_cart productA example_cart Hnd)).
  - exact (proj1 (proj2 (proj2 (proj2 (totals_follow_cart productA example_cart Hnd))))
             {| product := productA; quantity := 2 |} eq_refl (proj1 (Z.leb_le 1 2) eq_refl)).
  - exact (eq_trans
             (proj1 (proj2 (proj2 (totals_follow_cart (priced 3 1.25%float) example_cart Hnd)))
                eq_refl)
             eq_refl).
Defined.

End CartTotals.

(** ** More on the checkout *)
Section CheckoutOutcome.
Import Menu.

(** The world after a submission that passed the three checks. *)
Lemma checkout_world respond r table :
  selectedTable r = Some table -> Js.truthy table = true ->
  cart_nonempty r = true -> name_present r = true ->
  checkout respond r =
  {| state := {| cart := []; selectedTable := Some table; cartCustomerName := "";
                 isCartOpen := false; isPlacingOrder := false |};
     hook := {| UseApi.isLoading := false;
                UseApi.error := match respond (order_request table r) with
                                | Rejected e => Some (Api.handleApiError e)
                                | Resolved _ => None
                                end |};
     log := [ Request (order_request table r);
              Toast (if failed (respond (order_request table r))
                     then {| title := "Order Submitted";
                             description := "Your order has been submitted. Please check with staff if you don't see it appear shortly.";
                             variant := Destructive |}
                     else success_toast (cartCustomerName r) table);
              SetTimeout {| push_url := ("/table-orders/" ++ table)%string;
                            delay_ms := 1000 |} ] |}.
Proof.
  intros Ht Htr Hc Hn. unfold checkout, handleCheckout, handleCheckout_with.
  rewrite Ht, Htr. unfold cart_nonempty in Hc. unfold name_present in Hn.
  destruct (cart r) as [|x rest] eqn:Ec; [discriminate|].
  rewrite Hn. change (Z.of_nat (length (x :: rest)) =? 0) with false. cbn [negb orb].
  unfold try_catch_finally, bind, UseApi.executeApiCall, orders_create, bind,
    try_catch_finally, modify, ret, throw, emit, at_render.
  cbn -[order_request success_toast String.append Api.handleApiError].
  destruct (respond (order_request table r)) as [[o|]|e];
    cbn -[order_request success_toast String.append Api.handleApiError];
    rewrite ?Ht; reflexivity.
Qed.

Lemma request_items_sum cart :
  fold_right Z.add 0 (map snd (map (fun item => (item_id item, quantity item)) cart))
  = sum_of_quantities cart.
Proof. induction cart as [|x cart IH]; simpl; [reflexivity|]. rewrite IH. reflexivity. Qed.

(** X18.  A successful order.  When the three checks pass and the server
    answers with an order, the checkout sends one request -- the trimmed
    name and one entry per cart line, with the ids of the lines in cart
    order and quantities that add up to [getTotalItems] -- and ends with
    the cart empty, the name cleared, the dialog closed, no error, nothing
    loading, the success toast and the navigation to the table view
    after 1000 ms. *)
Theorem checkout_success respond r table :
  selectedTable r = Some table -> Js.truthy table = true ->
  cart_nonempty r = true -> name_present r = true ->
  failed (respond (order_request table r)) = false ->
  let w := checkout respond r in
  let req := order_request table r in
  state w = {| cart := []; selectedTable := Some table; cartCustomerName := "";
               isCartOpen := false; isPlacingOrder := false |} /\
  hook w = {| UseApi.isLoading := false; UseApi.error := None |} /\
  requests (log w) = [req] /\
  toasts (log w) = [success_toast (cartCustomerName r) table] /\
  timers (log w) = [ {| push_url := ("/table-orders/" ++ table)%string; delay_ms := 1000 |} ] /\
  req_guestName req = Js.trim (cartCustomerName r) /\
  map fst (req_items req) = ids (cart r) /\
  fold_right Z.add 0 (map snd (req_items req)) = getTotalItems (cart r).
Proof.
  intros Ht Htr Hc Hn Hok. cbv zeta.
  rewrite (checkout_world respond r table Ht Htr Hc Hn), Hok.
  destruct (respond (order_request table r)) as [[o|]|e]; try discriminate.
  cbn -[order_request success_toast String.append].
  repeat split.
  - unfold order_request. cbn [req_items]. unfold ids. rewrite List.map_map. reflexivity.
  - unfold order_request. cbn [req_items]. rewrite request_items_sum.
    unfold getTotalItems. rewrite getTotalItems_from. lia.
Qed.

Lemma checkout_success_witness :
  failed (Resolved (Some created_order)) = false /\
  cart (state (checkout (fun _ => Resolved (Some created_order)) guest_state)) = [].
Proof.
  split; [reflexivity|].
  exact (f_equal cart
           (proj1 (checkout_success (fun _ => Resolved (Some created_order)) guest_state "5"
                     eq_refl eq_refl eq_refl eq_refl eq_refl))).
Defined.



End CheckoutOutcome.

(** ** Loading the products of a category *)
Section Categories.
Import MenuProducts.

(** X20.  Loading a category never throws.  It records the category, sends the
    one request the category stands for ([getAll] for "all"), and ends
    with nothing loading.  The products shown are replaced by the answer
    when the server gives one, an empty list included, and stay as they
    were when the call fails or gives nothing. *)
Theorem category_load (respond : Request -> Outcome (list Product.t))
    (category : string) (w : World) :
  let result := loadProductsByCategory respond category w in
  fst result = Normal tt /\
  currentCategory (state (snd result)) = category /\
  requests (snd result) = requests w ++ [request_for category] /\
  UseApi.isLoading (hook (snd result)) = false /\
  categoryLoading (state (snd result))
  = (if (category =? "all")%string then categoryLoading (state w) else false) /\
  products (state (snd result))
  = match respond (request_for category) with
    | Resolved (Some listed) => listed
    | _ => products (state w)
    end /\
  UseApi.error (hook (snd result))
  = match respond (request_for category) with
    | Rejected e => Some (Api.handleApiError e)
    | Resolved _ => None
    end.
Proof.
  cbv zeta. unfold loadProductsByCategory, request_for.
  unfold setCurrentCategory, on_state. rewrite bind_modify.
  destruct (category =? "all")%string.
  - unfold loadProducts, UseApi.executeApiCall, fetch, try_catch_finally, bind, modify,
      ret, throw, setProducts, on_state, modify.
    cbn -[Api.handleApiError].
    destruct (respond GetAll) as [[l|]|e]; cbn -[Api.handleApiError]; repeat split.
  - unfold setCategoryLoading, setProducts, on_state, UseApi.executeApiCall, fetch,
      try_catch_finally, bind, modify, ret, throw.
    cbn -[Api.handleApiError].
    destruct (respond (GetByCategory category)) as [[l|]|e];
      cbn -[Api.handleApiError]; repeat split.
Qed.

End Categories.

(** ** The list of orders of the dashboard *)
Section OrderList.
Import Orders OrdersPage.


Lemma without_order_spec orderId l o :
  In o (without_order orderId l) <-> In o l /\ Order.id o <> orderId.
Proof.
  unfold without_order. rewrite List.filter_In, negb_true_iff, Z.eqb_neq. reflexivity.
Qed.


(** X22.  Deleting the selected order.  With an order selected, the handler
    sends one delete request and then, whatever the server answered --
    a rejection included --, takes the order out of the list, clears the
    selection, closes both dialogs and shows the toast "Order deleted
    successfully"; a rejection is only stored as the error of the hook.
    Without a selected order it does nothing. *)
Theorem delete_regardless (respond : Z -> Outcome unit) (r : State) :
  (selectedOrder r = None ->
     handleDeleteOrder respond r (at_render r) = (Normal tt, at_render r)) /\
  (forall selected, selectedOrder r = Some selected ->
     let result := handleDeleteOrder respond r (at_render r) in
     fst result = Normal tt /\
     sent_requests (log (snd result)) = [Delete (Order.id selected)] /\
     orders (state (snd result)) = without_order (Order.id selected) (orders r) /\
     (forall o, In o (orders (state (snd result))) -> Order.id o <> Order.id selected) /\
     selectedOrder (state (snd result)) = None /\
     isOrderDetailsOpen (state (snd result)) = false /\
     isDeleteDialogOpen (state (snd result)) = false /\
     shown_toasts (log (snd result))
     = [ {| title := "Success"; description := "Order deleted successfully";
            variant := Default |} ] /\
     UseApi.error (hook (snd result))
     = match respond (Order.id selected) with
       | Rejected e => Some (Api.handleApiError e)
       | Resolved _ => None
       end).
Proof.
  split.
  - intros Hs. unfold handleDeleteOrder. rewrite Hs. reflexivity.
  - intros selected Hs. cbv zeta. unfold handleDeleteOrder. rewrite Hs.
    unfold UseApi.executeApiCall, call_delete, try_catch_finally, bind, modify,
      ret, throw, emit, toast, emit, setOrders, setSelectedOrder, setIsOrderDetailsOpen,
      setIsDeleteDialogOpen, on_state, modify, at_render.
    cbn -[Api.handleApiError without_order].
    destruct (respond (Order.id selected)) as [v|e];
      cbn -[Api.handleApiError without_order];
      repeat split; intros o Ho; apply without_order_spec in Ho; tauto.
Qed.

Lemma delete_regardless_witness :
  orders (state (snd (handleDeleteOrder (fun _ => Rejected Menu.server_down)
                        {| orders := [Menu.created_order];
                           selectedOrder := Some Menu.created_order;
                           isOrderDetailsOpen := true; isCreateOrderOpen := false;
                           isDeleteDialogOpen := true; currentStatus := "all";
                           newOrder := emptyOrder |}
                        (at_render
                           {| orders := [Menu.created_order];
                              selectedOrder := Some Menu.created_order;
                              isOrderDetailsOpen := true; isCreateOrderOpen := false;
                              isDeleteDialogOpen := true; currentStatus := "all";
                              newOrder := emptyOrder |}))))
  = [].
Proof.
  exact (proj1 (proj2 (proj2
           (proj2 (delete_regardless (fun _ => Rejected Menu.server_down)
                     {| orders := [Menu.created_order];
                        selectedOrder := Some Menu.created_order;
                        isOrderDetailsOpen := true; isCreateOrderOpen := false;
                        isDeleteDialogOpen := true; currentStatus := "all";
                        newOrder := emptyOrder |})
                  Menu.created_order eq_refl)))).
Defined.




Lemma getProductPrice_listed products p :
  List.NoDup (map Product.id products) -> In p products ->
  getProductPrice products (Product.id p) = Product.price p.
Proof.
  unfold getProductPrice. induction products as [|x products IH]; simpl; intros Hnd Hin.
  - contradiction.
  - apply List.NoDup_cons_iff in Hnd. destruct Hnd as [Hx Hnd].
    destruct Hin as [->|Hin]; [rewrite Z.eqb_refl; reflexivity|].
    destruct (Z.eqb_spec (Product.id x) (Product.id p)) as [E|E].
    + exfalso. apply Hx. rewrite E. apply List.in_map. exact Hin.
    + apply IH; assumption.
Qed.

Lemma calculateSubtotal_last products draft l entry :
  items draft = l ++ [entry] ->
  calculateSubtotal products draft
  = (calculateSubtotal products (with_items draft l)
     + getProductPrice products (productId entry) * Js.number (quantity entry))%float.
Proof.
  intros H. unfold calculateSubtotal. rewrite H, fold_left_app. reflexivity.
Qed.

(** X24.  The subtotal of the draft.  A product that is not in the list
    of products counts for 0, and a listed product for its price when
    the ids of the list are distinct.  The subtotal of the empty draft
    is 0.  Adding a selected product that has no entry appends one, and
    the subtotal becomes the old subtotal plus, in binary64, the price
    times the selected quantity; removing the last entry undoes that:
    the subtotal before is the subtotal after plus the price times the
    quantity of the entry.  Removing a product with no entry changes
    nothing.  The subtotal is computed anew from the entries and need
    not be the old one plus the price: with products at 0.10, 0.20 and
    0.30, one of each, selecting the first once more gives 0.7 while the
    old subtotal plus 0.10 is 0.7000000000000001. *)
Theorem subtotal_follows_draft (products : list Product.t) (f : Form) :
  (forall id, ~ In id (map Product.id products) -> getProductPrice products id = 0%float) /\
  (forall p, List.NoDup (map Product.id products) -> In p products ->
     getProductPrice products (Product.id p) = Product.price p) /\
  calculateSubtotal products emptyOrder = 0%float /\
  (forall selected,
     selectedProduct f = Some selected -> selected <> 0 -> 0 < selectedQuantity f ->
     ~ In selected (productIds (items (Orders.newOrder f))) ->
     items (Orders.newOrder (handleAddProductToOrder f))
     = items (Orders.newOrder f)
       ++ [ {| productId := selected; quantity := selectedQuantity f |} ] /\
     calculateSubtotal products (Orders.newOrder (handleAddProductToOrder f))
     = (calculateSubtotal products (Orders.newOrder f)
        + getProductPrice products selected * Js.number (selectedQuantity f))%float) /\
  (forall l entry,
     items (Orders.newOrder f) = l ++ [entry] -> ~ In (productId entry) (productIds l) ->
     items (Orders.newOrder (handleRemoveProductFromOrder (productId entry) f)) = l /\
     calculateSubtotal products (Orders.newOrder f)
     = (calculateSubtotal products
          (Orders.newOrder (handleRemoveProductFromOrder (productId entry) f))
        + getProductPrice products (productId entry) * Js.number (quantity entry))%float) /\
  (forall id, ~ In id (productIds (items (Orders.newOrder f))) ->
     handleRemoveProductFromOrder id f = f) /\
  (calculateSubtotal small_change_products
     (Orders.newOrder (handleAddProductToOrder small_change_form))
   = 0x1.6666666666666p-1%float /\
   (calculateSubtotal small_change_products (Orders.newOrder small_change_form)
    + getProductPrice small_change_products 1 * Js.number 1)%float
   = 0x1.6666666666667p-1%float).
Proof.
  split; [|split; [|split; [|split; [|split; [|split]]]]].
  - intros id Hn. unfold getProductPrice.
    destruct (find (fun p => Product.id p =? id) products) as [p|] eqn:Hf; [|reflexivity].
    exfalso. apply Hn. apply List.find_some in Hf. destruct Hf as [Hin He].
    apply Z.eqb_eq in He. rewrite <- He. apply List.in_map. exact Hin.
  - intros p Hnd Hin. apply getProductPrice_listed; assumption.
  - reflexivity.
  - intros selected Hsel Hne Hq Habs.
    assert (Hguard : (selected =? 0) || (selectedQuantity f <=? 0) = false).
    { apply orb_false_iff. split; [apply Z.eqb_neq; exact Hne | apply Z.leb_gt; exact Hq]. }
    assert (Hitems : items (Orders.newOrder (handleAddProductToOrder f))
                     = items (Orders.newOrder f)
                       ++ [ {| productId := selected; quantity := selectedQuantity f |} ]).
    { unfold handleAddProductToOrder. rewrite Hsel, Hguard. cbv zeta.
      rewrite (findIndex_absent _ _ Habs). reflexivity. }
    split; [exact Hitems|].
    rewrite (calculateSubtotal_last products _ _ _ Hitems). unfold calculateSubtotal.
    unfold handleAddProductToOrder. rewrite Hsel, Hguard. cbv zeta.
    rewrite (findIndex_absent _ _ Habs). reflexivity.
  - intros l entry Hitems Habs.
    assert (Hrem : items (Orders.newOrder (handleRemoveProductFromOrder (productId entry) f))
                   = l).
    { cbn [handleRemoveProductFromOrder Orders.newOrder items with_items].
      rewrite Hitems, List.filter_app. cbn [List.filter]. rewrite Z.eqb_refl. cbn [negb].
      rewrite (draft_filter_absent _ l Habs). apply app_nil_r. }
    split; [exact Hrem|].
    rewrite (calculateSubtotal_last products _ _ _ Hitems). unfold calculateSubtotal.
    rewrite Hrem. reflexivity.
  - intros id Habs. unfold handleRemoveProductFromOrder.
    rewrite (draft_filter_absent _ _ Habs). destruct f as [[t g i] sp sq]. reflexivity.
  - split; reflexivity.
Qed.

Lemma subtotal_follows_draft_witness :
  getProductPrice [Menu.productA; Menu.productB] 9 = 0%float /\
  getProductPrice [Menu.productA; Menu.productB] 2 = 5%float /\
  calculateSubtotal [Menu.productA; Menu.productB]
    (Orders.newOrder (handleAddProductToOrder fresh_form)) = 22%float /\
  calculateSubtotal [Menu.productA; Menu.productB] (Orders.newOrder example_form)
  = (calculateSubtotal [Menu.productA; Menu.productB]
       (Orders.newOrder (handleRemoveProductFromOrder 2 example_form))
     + 5 * 1)%float /\
  handleRemoveProductFromOrder 9 example_form = example_form.
Proof.
  assert (Hnd : List.NoDup (map Product.id [Menu.productA; Menu.productB])).
  { repeat (constructor; [simpl; intuition discriminate|]). constructor. }
  split; [|split; [|split; [|split]]].
  - refine (proj1 (subtotal_follows_draft [Menu.productA; Menu.productB] example_form) 9 _).
    simpl. intuition discriminate.
  - refine (proj1 (proj2 (subtotal_follows_draft [Menu.productA; Menu.productB] example_form))
              Menu.productB Hnd _).
    simpl. auto.
  - refine (eq_trans
              (proj2 (proj1 (proj2 (proj2 (proj2
                 (subtotal_follows_draft [Menu.productA; Menu.productB] fresh_form))))
                 2 eq_refl _ _ _))
              eq_refl).
    + discriminate.
    + reflexivity.
    + simpl. intuition discriminate.
  - refine (proj2 (proj1 (proj2 (proj2 (proj2 (proj2
              (subtotal_follows_draft [Menu.productA; Menu.productB] example_form)))))
              [ {| productId := 1; quantity := 2 |} ] {| productId := 2; quantity := 1 |}
              eq_refl _)).
    simpl. intuition discriminate.
  - refine (proj1 (proj2 (proj2 (proj2 (proj2 (proj2
              (subtotal_follows_draft [Menu.productA; Menu.productB] example_form))))))
              9 _).
    simpl. intuition discriminate.
Defined.

End OrderList.

(** ** Quick updates and the status shown *)
Section StatusMore.
Import Orders StatusChain StatusDisplay.

Lemma after_call_body before after :
  ErrorEffect.after_call before after = ErrorEffect.body (UseApi.error after).
Proof.
  unfold ErrorEffect.after_call, ErrorEffect.over_renders, ErrorEffect.after_render.
  destruct (decide (UseApi.error before = None)); cbn [ErrorEffect.body app];
    destruct (UseApi.error after) as [m|].
  - rewrite decide_False by discriminate. apply app_nil_r.
  - rewrite decide_True by reflexivity. reflexivity.
  - rewrite decide_False by discriminate. apply app_nil_r.
  - rewrite decide_True by reflexivity. reflexivity.
Qed.

(** X25.  The list after a quick update.  From a status with a successor,
    when the server answers with the updated order the list shown is the
    rendered list with that order replaced in place -- same length,
    whatever tab is shown -- and the handler adds one toast; when the
    call fails or gives nothing the list is what it was and the handler
    adds no toast.  The effect of the page on the error of the hook
    shows a toast only after a rejection: "Error" with the message of
    [handleApiError], unless that message is empty -- also when the hook
    held that same message before the call. *)
Theorem quick_update_in_list (respond : Z -> string -> Outcome Order.t)
    (rendered : list Order.t) (orderId : Z) (s s' : string) (w : World) :
  nextStatus s = Some s' ->
  let w' := snd (handleQuickStatusUpdate respond rendered orderId s w) in
  let effect := ErrorEffect.after_call (hook w) (hook w') in
  (forall updated, respond orderId s' = Resolved (Some updated) ->
     orders w' = map (fun order => if Order.id order =? orderId then updated else order)
                     rendered /\
     length (orders w') = length rendered /\
     (forall i order, nth_error rendered i = Some order -> Order.id order <> orderId ->
        nth_error (orders w') i = Some order) /\
     (exists t, log w' = log w ++ [UpdateStatus orderId s'; Toast t]) /\
     effect = []) /\
  (respond orderId s' = Resolved None ->
     orders w' = orders w /\ log w' = log w ++ [UpdateStatus orderId s'] /\ effect = []) /\
  (forall e, respond orderId s' = Rejected e ->
     orders w' = orders w /\ log w' = log w ++ [UpdateStatus orderId s'] /\
     effect = if Js.truthy (Api.handleApiError e)
              then [ErrorEffect.error_toast (Api.handleApiError e)]
              else []).
Proof.
  intros Hn. cbv zeta. rewrite after_call_body. unfold handleQuickStatusUpdate. rewrite Hn.
  unfold UseApi.executeApiCall, orders_updateStatus, try_catch_finally, bind,
    modify, ret, throw, emit, setOrders.
  cbn -[String.append Api.handleApiError].
  destruct (respond orderId s') as [[updated|]|e]; cbn -[String.append Api.handleApiError].
  - split; [|split; discriminate].
    intros u [= <-]. split; [reflexivity|]. split; [apply List.length_map|].
    split; [|split; [|reflexivity]].
    + intros i order Hi Hid. rewrite List.nth_error_map, Hi. cbn.
      apply Z.eqb_neq in Hid. rewrite Hid. reflexivity.
    + eexists. rewrite <- app_assoc. reflexivity.
  - split; [intros u H; discriminate|]. split; [|discriminate].
    intros _. repeat split; reflexivity.
  - split; [intros u H; discriminate|]. split; [discriminate|].
    intros e' [= <-]. repeat split; reflexivity.
Qed.

Lemma quick_update_in_list_witness :
  nextStatus "new" = Some "preparing" /\
  (orders (snd (handleQuickStatusUpdate (fun _ _ => Resolved (Some prepared_order))
                  [Menu.created_order] 1 "new" after_an_error))
   = [prepared_order] /\
   ErrorEffect.after_call (hook after_an_error)
     (hook (snd (handleQuickStatusUpdate (fun _ _ => Resolved (Some prepared_order))
                   [Menu.created_order] 1 "new" after_an_error)))
   = []) /\
  (orders (snd (handleQuickStatusUpdate (fun _ _ => Resolved None)
                  [Menu.created_order] 1 "new" after_an_error))
   = [Menu.created_order] /\
   ErrorEffect.after_call (hook after_an_error)
     (hook (snd (handleQuickStatusUpdate (fun _ _ => Resolved None)
                   [Menu.created_order] 1 "new" after_an_error)))
   = []) /\
  (orders (snd (handleQuickStatusUpdate (fun _ _ => Rejected Menu.server_down)
                  [Menu.created_order] 1 "new" after_an_error))
   = [Menu.created_order] /\
   ErrorEffect.after_call (hook after_an_error)
     (hook (snd (handleQuickStatusUpdate (fun _ _ => Rejected Menu.server_down)
                   [Menu.created_order] 1 "new" after_an_error)))
   = [ErrorEffect.error_toast
        "Cannot connect to the server. Please check your connection or try again later."]).
Proof.
  split; [reflexivity|]. split; [|split].
  - destruct (proj1 (quick_update_in_list (fun _ _ => Resolved (Some prepared_order))
                       [Menu.created_order] 1 "new" "preparing" after_an_error eq_refl)
                prepared_order eq_refl) as (Ho & _ & _ & _ & He).
    exact (conj Ho He).
  - destruct (proj1 (proj2 (quick_update_in_list (fun _ _ => Resolved None)
                              [Menu.created_order] 1 "new" "preparing" after_an_error
                              eq_refl)) eq_refl) as (Ho & _ & He).
    exact (conj Ho He).
  - destruct (proj2 (proj2 (quick_update_in_list (fun _ _ => Rejected Menu.server_down)
                              [Menu.created_order] 1 "new" "preparing" after_an_error
                              eq_refl)) Menu.server_down eq_refl) as (Ho & _ & He).
    exact (conj Ho He).
Defined.

Lemma nextStatus_in_sequence s s' :
  nextStatus s = Some s' -> In s statusSequence /\ In s' statusSequence.
Proof.
  intros H. destruct (nextStatus_cases s s' H) as [[-> ->]|[[-> ->]|[[-> ->]|[-> ->]]]];
    unfold statusSequence; simpl; auto 10.
Qed.

(** X26.  An order is advanced at most four times.  Every status of the
    sequence leads to "paid" by at most four quick updates; a fifth never
    goes through, from any string; and no update leads back to "new" or
    stays where it is. *)
Theorem status_chain :
  (forall s, In s statusSequence ->
     exists n, (n <= 4)%nat /\ advance n s = Some "paid") /\
  advance 4 "new" = Some "paid" /\
  (forall s, advance 5 s = None) /\
  (forall s s', nextStatus s = Some s' -> s' <> "new" /\ s' <> s).
Proof.
  split; [|split; [reflexivity|split]].
  - intros s Hs. unfold statusSequence in Hs. simpl in Hs.
    destruct Hs as [<-|[<-|[<-|[<-|[<-|[]]]]]].
    + exists 4%nat. split; [lia | reflexivity].
    + exists 3%nat. split; [lia | reflexivity].
    + exists 2%nat. split; [lia | reflexivity].
    + exists 1%nat. split; [lia | reflexivity].
    + exists 0%nat. split; [lia | reflexivity].
  - intros s. cbn [advance].
    destruct (nextStatus s) as [s1|] eqn:H1; [|reflexivity].
    destruct (nextStatus_cases s s1 H1) as [[-> ->]|[[-> ->]|[[-> ->]|[-> ->]]]]; reflexivity.
  - intros s s' H.
    destruct (nextStatus_cases s s' H) as [[-> ->]|[[-> ->]|[[-> ->]|[-> ->]]]];
      split; discriminate.
Qed.

Lemma status_chain_witness :
  In "ready" statusSequence /\
  exists n, (n <= 4)%nat /\ advance n "ready" = Some "paid".
Proof.
  assert (H : In "ready" statusSequence) by (simpl; auto).
  split; [exact H|]. exact (proj1 status_chain "ready" H).
Defined.

(** X27.  The status shown agrees with the status sequence.  The badge reads
    "Unknown" exactly for the strings outside the sequence; the button
    that advances an order is shown exactly for the statuses with a
    successor, and its label is the fallback "Update Status" exactly when
    it is not shown. *)
Theorem status_display (status : string) :
  (label (getStatusBadge status) = "Unknown" <-> ~ In status statusSequence) /\
  (className (getStatusBadge status) = None <-> ~ In status statusSequence) /\
  (showsStatusButton status = true <-> exists next, nextStatus status = Some next) /\
  (getNextStatusLabel status = "Update Status" <-> showsStatusButton status = false) /\
  (showsStatusButton status = false <-> status = "paid" \/ ~ In status statusSequence).
Proof.
  unfold getStatusBadge, getNextStatusLabel, showsStatusButton, OrderDetails.getNextStatus,
    nextStatus, statusSequence.
  destruct (String.eqb_spec status "new") as [->|H1]; [cbn; intuition (try discriminate; eauto)|].
  destruct (String.eqb_spec status "preparing") as [->|H2];
    [cbn; intuition (try discriminate; eauto)|].
  destruct (String.eqb_spec status "ready") as [->|H3];
    [cbn; intuition (try discriminate; eauto)|].
  destruct (String.eqb_spec status "delivered") as [->|H4];
    [cbn; intuition (try discriminate; eauto)|].
  destruct (String.eqb_spec status "paid") as [->|H5].
  - cbn. intuition (try discriminate; eauto).
    destruct H as [next H]. discriminate.
  - cbn. intuition (try discriminate; try congruence; eauto).
    destruct H as [next H]. discriminate.
Qed.

Lemma status_display_witness :
  ~ In "cancelled" statusSequence /\
  label (getStatusBadge "cancelled") = "Unknown".
Proof.
  assert (H : ~ In "cancelled" statusSequence) by (simpl; intuition discriminate).
  split; [exact H|]. exact (proj2 (proj1 (status_display "cancelled")) H).
Defined.

End StatusMore.

(** ** The orders hook *)
Section OrderHook.
Import UseOrderApi.

Lemma find_first {A} (f : A -> bool) l x :
  find f l = Some x ->
  f x = true /\
  exists pre post, l = pre ++ x :: post /\ List.Forall (fun y => f y = false) pre.
Proof.
  induction l as [|y l IH]; simpl; intros Hf; [discriminate|].
  destruct (f y) eqn:Hy.
  - injection Hf as <-. split; [exact Hy|]. exists [], l. split; [reflexivity | constructor].
  - destruct (IH Hf) as (Hx & pre & post & -> & Hpre). split; [exact Hx|].
    exists (y :: pre), post. split; [reflexivity|]. constructor; assumption.
Qed.

Lemma find_all_false {A} (f : A -> bool) l :
  List.Forall (fun y => f y = false) l -> find f l = None.
Proof.
  induction 1 as [|y l Hy _ IH]; simpl; [reflexivity|]. rewrite Hy. exact IH.
Qed.

Lemma find_after_false {A} (f : A -> bool) pre x post :
  List.Forall (fun y => f y = false) pre -> f x = true ->
  find f (pre ++ x :: post) = Some x.
Proof.
  intros Hpre Hx. induction Hpre as [|y pre Hy _ IH]; simpl.
  - rewrite Hx. reflexivity.
  - rewrite Hy. exact IH.
Qed.

Lemma getCurrentOrderForTable_run respond tableId w :
  fst (getCurrentOrderForTable respond tableId w)
  = Normal match respond tableId with
           | Resolved (Some listed) =>
               find (fun order => negb (Order.status order =? "paid")%string) listed
           | _ => None
           end.
Proof.
  unfold getCurrentOrderForTable, UseApi.executeApiCall, call, try_catch_finally, bind,
    modify, ret, throw.
  cbn -[Api.handleApiError String.eqb].
  destruct (respond tableId) as [[listed|]|e]; cbn -[Api.handleApiError String.eqb];
    try reflexivity.
  destruct listed as [|o rest]; reflexivity.
Qed.

(** X28.  The current order of a table.  The hook never throws.  When
    the server lists orders of which one is not paid, the hook returns
    the first order of the list that is not paid, whatever follows it.
    An order it returns is one of the orders the server listed for the
    table, is not paid, and every order before it in the list is paid.
    It returns nothing when every listed order is paid, when the list is
    empty and when the call fails. *)
Theorem current_order_for_table (respond : Z -> Outcome (list Order.t)) (tableId : Z)
    (w : World) :
  let result := getCurrentOrderForTable respond tableId w in
  (exists found, fst result = Normal found) /\
  (forall pre order post,
     respond tableId = Resolved (Some (pre ++ order :: post)) ->
     List.Forall (fun earlier => Order.status earlier = "paid") pre ->
     Order.status order <> "paid" ->
     fst result = Normal (Some order)) /\
  (forall order, fst result = Normal (Some order) ->
     Order.status order <> "paid" /\
     exists pre post,
       respond tableId = Resolved (Some (pre ++ order :: post)) /\
       List.Forall (fun earlier => Order.status earlier = "paid") pre) /\
  (forall listed, respond tableId = Resolved (Some listed) ->
     List.Forall (fun order => Order.status order = "paid") listed ->
     fst result = Normal None) /\
  (respond tableId = Resolved None \/ (exists e, respond tableId = Rejected e) ->
     fst result = Normal None).
Proof.
  cbv zeta. rewrite getCurrentOrderForTable_run.
  split; [eexists; reflexivity|]. split; [|split; [|split]].
  - intros pre order post -> Hpre Hx. f_equal. apply find_after_false.
    + eapply List.Forall_impl; [|exact Hpre].
      intros a Ha. cbv beta in Ha. rewrite Ha. reflexivity.
    + apply negb_true_iff, String.eqb_neq. exact Hx.
  - intros order H. injection H as H.
    destruct (respond tableId) as [[listed|]|e]; try discriminate.
    destruct (find_first _ _ _ H) as (Hx & pre & post & -> & Hpre).
    apply negb_true_iff, String.eqb_neq in Hx. split; [exact Hx|].
    exists pre, post. split; [reflexivity|].
    eapply List.Forall_impl; [|exact Hpre].
    intros a Ha. apply negb_false_iff, String.eqb_eq in Ha. exact Ha.
  - intros listed -> Hpaid. f_equal. apply find_all_false.
    eapply List.Forall_impl; [|exact Hpaid].
    intros a Ha. cbv beta in Ha. rewrite Ha. reflexivity.
  - intros [->|[e ->]]; reflexivity.
Qed.

Lemma current_order_for_table_witness :
  fst (getCurrentOrderForTable
         (fun _ => Resolved (Some [settled_order; Menu.created_order; settled_order]))
         5 at_rest)
  = Normal (Some Menu.created_order) /\
  Order.status Menu.created_order <> "paid" /\
  fst (getCurrentOrderForTable (fun _ => Resolved (Some [settled_order; settled_order]))
         5 at_rest)
  = Normal None /\
  fst (getCurrentOrderForTable (fun _ => Rejected Menu.server_down) 5 at_rest)
  = Normal None.
Proof.
  assert (Hfound :
            fst (getCurrentOrderForTable
                   (fun _ => Resolved (Some [settled_order; Menu.created_order;
                                             settled_order]))
                   5 at_rest)
            = Normal (Some Menu.created_order)).
  { refine (proj1 (proj2
              (current_order_for_table
                 (fun _ => Resolved (Some [settled_order; Menu.created_order;
                                           settled_order]))
                 5 at_rest))
              [settled_order] Menu.created_order [settled_order] eq_refl _ _).
    - constructor; [reflexivity | constructor].
    - discriminate. }
  split; [exact Hfound|]. split; [|split].
  - exact (proj1 (proj1 (proj2 (proj2
             (current_order_for_table
                (fun _ => Resolved (Some [settled_order; Menu.created_order;
                                          settled_order]))
                5 at_rest)))
             Menu.created_order Hfound)).
  - refine (proj1 (proj2 (proj2 (proj2
              (current_order_for_table
                 (fun _ => Resolved (Some [settled_order; settled_order])) 5 at_rest))))
              [settled_order; settled_order] eq_refl _).
    repeat constructor.
  - refine (proj2 (proj2 (proj2 (proj2
              (current_order_for_table (fun _ => Rejected Menu.server_down) 5 at_rest))))
              _).
    right. eexists. reflexivity.
Defined.

(** X29.  Deleting and creating through the hook.  [deleteOrder] takes the
    order out of the list and answers [true] only when the server
    accepted the deletion; when the call fails it answers [false] and the
    list stays as it was.  [createOrder] puts the created order at the
    end of the list and returns it, and returns nothing, with the list
    unchanged, when the call fails or gives nothing. *)
Theorem hook_delete_and_create (rendered : list Order.t) (w : World) :
  (forall respond id done,
     respond id = Resolved done ->
     let result := deleteOrder respond rendered id w in
     fst result = Normal true /\
     orders (state (snd result))
     = List.filter (fun order => negb (Order.id order =? id)) rendered /\
     (forall order, In order (orders (state (snd result))) -> Order.id order <> id)) /\
  (forall respond id e,
     respond id = Rejected e ->
     let result := deleteOrder respond rendered id w in
     fst result = Normal false /\
     orders (state (snd result)) = orders (state w) /\
     UseApi.error (hook (snd result)) = Some (Api.handleApiError e)) /\
  (forall respond tableId items created,
     respond tableId items = Resolved (Some created) ->
     let result := createOrder respond rendered tableId items w in
     fst result = Normal (Some created) /\
     orders (state (snd result)) = rendered ++ [created]) /\
  (forall respond tableId items,
     respond tableId items = Resolved None \/ (exists e, respond tableId items = Rejected e) ->
     let result := createOrder respond rendered tableId items w in
     fst result = Normal None /\
     orders (state (snd result)) = orders (state w)).
Proof.
  split; [|split; [|split]].
  - intros respond id done Hr. cbv zeta.
    unfold deleteOrder, UseApi.executeApiCall, call, try_catch_finally, bind, modify,
      ret, throw, setOrders, modify.
    cbn -[Api.handleApiError]. rewrite Hr. cbn -[Api.handleApiError].
    split; [reflexivity|]. split; [reflexivity|].
    intros order Hin. apply List.filter_In in Hin. destruct Hin as [_ Hne].
    apply negb_true_iff, Z.eqb_neq in Hne. exact Hne.
  - intros respond id e Hr. cbv zeta.
    unfold deleteOrder, UseApi.executeApiCall, call, try_catch_finally, bind, modify,
      ret, throw, setOrders, modify.
    cbn -[Api.handleApiError]. rewrite Hr. cbn -[Api.handleApiError].
    repeat split.
  - intros respond tableId items created Hr. cbv zeta.
    unfold createOrder, UseApi.executeApiCall, call, try_catch_finally, bind, modify,
      ret, throw, setOrders, modify.
    cbn -[Api.handleApiError]. rewrite Hr. cbn -[Api.handleApiError].
    repeat split.
  - intros respond tableId items Hr. cbv zeta.
    unfold createOrder, UseApi.executeApiCall, call, try_catch_finally, bind, modify,
      ret, throw, setOrders, modify.
    cbn -[Api.handleApiError]. destruct Hr as [Hr|[e Hr]]; rewrite Hr;
      cbn -[Api.handleApiError]; repeat split.
Qed.

Lemma hook_delete_and_create_witness :
  fst (deleteOrder (fun _ => Rejected Menu.server_down) [Menu.created_order] 1
         {| state := {| orders := [Menu.created_order]; filteredOrders := [];
                        currentStatus := None |};
            hook := {| UseApi.isLoading := false; UseApi.error := None |};
            requests := [] |})
  = Normal false.
Proof.
  exact (proj1 (proj1 (proj2
           (hook_delete_and_create [Menu.created_order]
              {| state := {| orders := [Menu.created_order]; filteredOrders := [];
                             currentStatus := None |};
                 hook := {| UseApi.isLoading := false; UseApi.error := None |};
                 requests := [] |}))
           (fun _ => Rejected Menu.server_down) 1 Menu.server_down eq_refl)).
Defined.

End OrderHook.
